(** * nuklear_gamepad: the gamepad state tracker of nuklear_gamepad.h

    A shallow embedding of the tracker (struct nk_gamepads and the
    nk_gamepad_* functions) and the properties of its double-buffered
    button masks, edge queries and first-match scan. *)

From Stdlib Require Import ZArith Lia Bool Ascii String.
From stdpp Require Import base list.

Local Open Scope Z_scope.

(** ** Compile-time configuration *)

Definition NK_GAMEPAD_MAX : Z := 4.
Definition NK_GAMEPAD_NAME_PREFIX : list ascii := list_ascii_of_string "Controller ".
Definition NK_GAMEPAD_NAME_SIZE : Z := 16.

(** ** enum nk_gamepad_button

    A C enumeration is an int; a parameter of that type can carry any
    ordinal, so buttons are integers and the enumerators are constants. *)

Definition NK_GAMEPAD_BUTTON_INVALID : Z := -1.
Definition NK_GAMEPAD_BUTTON_FIRST : Z := 0.
Definition NK_GAMEPAD_BUTTON_UP : Z := 0.
Definition NK_GAMEPAD_BUTTON_DOWN : Z := 1.
Definition NK_GAMEPAD_BUTTON_LEFT : Z := 2.
Definition NK_GAMEPAD_BUTTON_RIGHT : Z := 3.
Definition NK_GAMEPAD_BUTTON_A : Z := 4.
Definition NK_GAMEPAD_BUTTON_B : Z := 5.
Definition NK_GAMEPAD_BUTTON_X : Z := 6.
Definition NK_GAMEPAD_BUTTON_Y : Z := 7.
Definition NK_GAMEPAD_BUTTON_LB : Z := 8.
Definition NK_GAMEPAD_BUTTON_RB : Z := 9.
Definition NK_GAMEPAD_BUTTON_BACK : Z := 10.
Definition NK_GAMEPAD_BUTTON_START : Z := 11.
Definition NK_GAMEPAD_BUTTON_LAST : Z := 12.

(** ** Machine integers

    [unsigned int] is 32 bits wide: an [int] operand of [|] or [&] whose
    other operand is a mask is first converted, that is reduced modulo
    2^32.  [NK_GAMEPAD_BUTTON_FLAG] is [1 << button] on [int]; C defines
    that shift for [0 <= button < 31], where it equals
    [Z.shiftl 1 button]. *)

Definition to_uint (x : Z) : Z := x mod 2 ^ 32.

Definition NK_GAMEPAD_BUTTON_FLAG (button : Z) : Z := Z.shiftl 1 button.

(** ** Data model *)

(** Nuklear's nk_bool is an int that the tracker only ever compares with
    nk_false or tests in a condition: what matters is whether it is zero. *)
Definition nk_bool := bool.
Definition nk_true : nk_bool := true.
Definition nk_false : nk_bool := false.

(** Opaque pointers (to struct nk_context, to void) are addresses. *)
Definition pointer := Z.
Definition NULL : pointer := 0.

Record nk_gamepad := mk_gamepad {
  available : nk_bool;
  buttons : Z;
  buttons_prev : Z;
  name : list ascii;
  data : pointer
}.

Record nk_gamepads := mk_gamepads {
  gamepads : list nk_gamepad;
  ctx : pointer;
  user_data : pointer
}.

(** A slot whose bytes are all zero, as nk_zero leaves it. *)
Definition zero_gamepad : nk_gamepad :=
  {| available := nk_false; buttons := 0; buttons_prev := 0;
     name := replicate (Z.to_nat NK_GAMEPAD_NAME_SIZE) zero; data := NULL |}.

#[global] Instance nk_gamepad_inhabited : Inhabited nk_gamepad :=
  populate zero_gamepad.

#[global] Instance ascii_inhabited : Inhabited ascii := populate zero.

(** The array member has exactly NK_GAMEPAD_MAX elements. *)
Definition well_formed (g : nk_gamepads) : Prop :=
  length (gamepads g) = Z.to_nat NK_GAMEPAD_MAX.

(** [g->gamepads[i]] *)
Definition gamepad_at (g : nk_gamepads) (i : Z) : nk_gamepad :=
  gamepads g !!! Z.to_nat i.

(** Field assignments. *)
Definition set_available (v : nk_bool) (p : nk_gamepad) : nk_gamepad :=
  {| available := v; buttons := buttons p; buttons_prev := buttons_prev p;
     name := name p; data := data p |}.

Definition set_buttons (v : Z) (p : nk_gamepad) : nk_gamepad :=
  {| available := available p; buttons := v;
     buttons_prev := buttons_prev p; name := name p; data := data p |}.

Definition set_buttons_prev (v : Z) (p : nk_gamepad) : nk_gamepad :=
  {| available := available p; buttons := buttons p;
     buttons_prev := v; name := name p; data := data p |}.

Definition set_name (v : list ascii) (p : nk_gamepad) : nk_gamepad :=
  {| available := available p; buttons := buttons p;
     buttons_prev := buttons_prev p; name := v; data := data p |}.

(** [g->gamepads[i] = f (g->gamepads[i])] *)
Definition update_gamepad (i : Z) (f : nk_gamepad -> nk_gamepad)
    (g : nk_gamepads) : nk_gamepads :=
  {| gamepads := <[Z.to_nat i := f (gamepad_at g i)]> (gamepads g);
     ctx := ctx g; user_data := user_data g |}.

Definition set_ctx (v : pointer) (g : nk_gamepads) : nk_gamepads :=
  {| gamepads := gamepads g; ctx := v; user_data := user_data g |}.

Definition set_user_data (v : pointer) (g : nk_gamepads) : nk_gamepads :=
  {| gamepads := gamepads g; ctx := ctx g; user_data := v |}.

(** ** Loops

    [for (i = lo; i < lo + n; i++)] in its two uses: a body that updates
    the state, and a body that either returns from the function
    ([Some r]) or goes on with the next index ([None], also what
    [continue] does). *)

Fixpoint for_each {S : Type} (n : nat) (i : Z) (body : Z -> S -> S) (s : S) : S :=
  match n with
  | O => s
  | S k => for_each k (i + 1) body (body i s)
  end.

Fixpoint for_return {R : Type} (n : nat) (i : Z) (body : Z -> option R) : option R :=
  match n with
  | O => None
  | S k =>
      match body i with
      | Some r => Some r
      | None => for_return k (i + 1) body
      end
  end.

(** ** The backend

    A backend header defines up to four macros; each [#ifdef] of the
    implementation is a hook that is present or not. *)

Record backend := mk_backend {
  NK_GAMEPAD_INIT : option (nk_gamepads -> nk_bool * nk_gamepads);
  NK_GAMEPAD_UPDATE : option (nk_gamepads -> nk_gamepads);
  NK_GAMEPAD_FREE : option (nk_gamepads -> nk_gamepads);
  NK_GAMEPAD_NAME : option (nk_gamepads -> Z -> option (list ascii))
}.

(** NK_GAMEPAD_NONE: no hook is defined. *)
Definition no_backend : backend :=
  {| NK_GAMEPAD_INIT := None; NK_GAMEPAD_UPDATE := None;
     NK_GAMEPAD_FREE := None; NK_GAMEPAD_NAME := None |}.

(** ** Nuklear helpers used by nk_gamepad_init *)

(** [nk_zero(gamepads, sizeof(struct nk_gamepads))] *)
Definition nk_zero : nk_gamepads :=
  {| gamepads := replicate (Z.to_nat NK_GAMEPAD_MAX) zero_gamepad;
     ctx := NULL; user_data := NULL |}.

(** [nk_strlen]: the characters before the first NUL. *)
Fixpoint nk_strlen (s : list ascii) : Z :=
  match s with
  | [] => 0
  | c :: r => if Ascii.eqb c zero then 0 else 1 + nk_strlen r
  end.

(** The decimal digits of a positive number, lowest first; a long has
    fewer than 20 of them. *)
Fixpoint digits_rev (fuel : nat) (n : Z) : list ascii :=
  match fuel with
  | O => []
  | S k =>
      if 0 <? n
      then ascii_of_nat (Z.to_nat (48 + n mod 10)) :: digits_rev k (n / 10)
      else []
  end.

(** [nk_itoa(s, n)]: the characters it stores from [s] on, the
    terminating NUL included. *)
Definition nk_itoa (n : Z) : list ascii :=
  if n =? 0 then ["0"%char; zero]
  else if n <? 0 then "-"%char :: rev (digits_rev 20 (- n)) ++ [zero]
  else rev (digits_rev 20 n) ++ [zero].

(** ** The tracker

    A pointer-to-[struct nk_gamepads] argument is [None] when it is NULL and
    otherwise carries the tracker it points to; a function that writes
    through it returns the tracker it leaves behind. *)

Section Tracker.

Variable B : backend.

(** nk_gamepad_init up to the backend hook: the zeroed tracker with its
    context, user data, availability flags and default names. *)
Definition default_state (ctx user_data : pointer) : nk_gamepads :=
  let g := nk_zero in
  let g := set_ctx ctx g in
  let g := set_user_data user_data g in
  for_each (Z.to_nat NK_GAMEPAD_MAX) 0 (fun i g =>
    let g := update_gamepad i (set_available nk_true) g in
    let name_prefix := NK_GAMEPAD_NAME_PREFIX in
    let len := nk_strlen name_prefix in
    let g :=
      for_each (Z.to_nat len) 0 (fun j g =>
        update_gamepad i (fun p =>
          set_name (<[Z.to_nat j := name_prefix !!! Z.to_nat j]> (name p)) p) g) g in
    update_gamepad i (fun p =>
      set_name (list_inserts (Z.to_nat len) (nk_itoa (i + 1)) (name p)) p) g) g.

(** The last loop of nk_gamepad_init, after the backend hook. *)
Definition seed_previous (g : nk_gamepads) : nk_gamepads :=
  for_each (Z.to_nat NK_GAMEPAD_MAX) 0 (fun i g =>
    update_gamepad i (fun p => set_buttons_prev (buttons p) p) g) g.

Definition nk_gamepad_init (gamepads : option nk_gamepads)
    (ctx user_data : pointer) : nk_bool * option nk_gamepads :=
  match gamepads with
  | None => (nk_false, None)
  | Some _ =>
      let g := default_state ctx user_data in
      match NK_GAMEPAD_INIT B with
      | Some hook =>
          let (ok, g) := hook g in
          if negb ok then (nk_false, Some g)
          else (nk_true, Some (seed_previous g))
      | None => (nk_true, Some (seed_previous g))
      end
  end.

Definition nk_gamepad_free (gamepads : option nk_gamepads) : option nk_gamepads :=
  match gamepads with
  | None => None
  | Some g =>
      let g := match NK_GAMEPAD_FREE B with Some hook => hook g | None => g end in
      Some nk_zero
  end.

Definition nk_gamepad_button (gamepads : option nk_gamepads) (num button : Z)
    (down : nk_bool) : option nk_gamepads :=
  match gamepads with
  | None => None
  | Some g =>
      if (num <? 0) || (num >=? NK_GAMEPAD_MAX)
         || negb (available (gamepad_at g num))
      then Some g
      else if down
      then Some (update_gamepad num (fun p =>
             set_buttons (Z.lor (buttons p)
                            (to_uint (NK_GAMEPAD_BUTTON_FLAG button))) p) g)
      else Some (update_gamepad num (fun p =>
             set_buttons (Z.land (buttons p)
                            (to_uint (Z.lnot (NK_GAMEPAD_BUTTON_FLAG button)))) p) g)
  end.

(** The loop of nk_gamepad_update, before the backend is polled. *)
Definition rotate_masks (g : nk_gamepads) : nk_gamepads :=
  for_each (Z.to_nat NK_GAMEPAD_MAX) 0 (fun i g =>
    if negb (available (gamepad_at g i)) then g
    else
      let g := update_gamepad i (fun p => set_buttons_prev (buttons p) p) g in
      update_gamepad i (set_buttons 0) g) g.

Definition nk_gamepad_update (gamepads : option nk_gamepads) : option nk_gamepads :=
  match gamepads with
  | None => None
  | Some g =>
      let g := rotate_masks g in
      match NK_GAMEPAD_UPDATE B with
      | Some hook => Some (hook g)
      | None => Some g
      end
  end.

Definition nk_gamepad_is_button_down (gamepads : option nk_gamepads)
    (num button : Z) : nk_bool :=
  match gamepads with
  | None => nk_false
  | Some g =>
      if num <? 0 then
        match
          for_return (Z.to_nat NK_GAMEPAD_MAX) 0 (fun i =>
            if negb (available (gamepad_at g i)) then None
            else if negb (Z.land (buttons (gamepad_at g i))
                            (to_uint (NK_GAMEPAD_BUTTON_FLAG button)) =? 0)
            then Some nk_true
            else None)
        with
        | Some r => r
        | None => nk_false
        end
      else if (num >=? NK_GAMEPAD_MAX) || negb (available (gamepad_at g num))
      then nk_false
      else negb (Z.land (buttons (gamepad_at g num))
                   (to_uint (NK_GAMEPAD_BUTTON_FLAG button)) =? 0)
  end.

Definition nk_gamepad_is_button_pressed (gamepads : option nk_gamepads)
    (num button : Z) : nk_bool :=
  match gamepads with
  | None => nk_false
  | Some g =>
      if num <? 0 then
        match
          for_return (Z.to_nat NK_GAMEPAD_MAX) 0 (fun i =>
            if negb (available (gamepad_at g i)) then None
            else if (Z.land (buttons_prev (gamepad_at g i))
                       (to_uint (NK_GAMEPAD_BUTTON_FLAG button)) =? 0)
                    && negb (Z.land (buttons (gamepad_at g i))
                               (to_uint (NK_GAMEPAD_BUTTON_FLAG button)) =? 0)
            then Some nk_true
            else None)
        with
        | Some r => r
        | None => nk_false
        end
      else if (num >=? NK_GAMEPAD_MAX) || negb (available (gamepad_at g num))
      then nk_false
      else (Z.land (buttons_prev (gamepad_at g num))
              (to_uint (NK_GAMEPAD_BUTTON_FLAG button)) =? 0)
           && negb (Z.land (buttons (gamepad_at g num))
                      (to_uint (NK_GAMEPAD_BUTTON_FLAG button)) =? 0)
  end.

Definition nk_gamepad_is_button_released (gamepads : option nk_gamepads)
    (num button : Z) : nk_bool :=
  match gamepads with
  | None => nk_false
  | Some g =>
      if num <? 0 then
        match
          for_return (Z.to_nat NK_GAMEPAD_MAX) 0 (fun i =>
            if negb (available (gamepad_at g i)) then None
            else if (Z.land (buttons (gamepad_at g i))
                       (to_uint (NK_GAMEPAD_BUTTON_FLAG button)) =? 0)
                    && negb (Z.land (buttons_prev (gamepad_at g i))
                               (to_uint (NK_GAMEPAD_BUTTON_FLAG button)) =? 0)
            then Some nk_true
            else None)
        with
        | Some r => r
        | None => nk_false
        end
      else if (num >=? NK_GAMEPAD_MAX) || negb (available (gamepad_at g num))
      then nk_false
      else (Z.land (buttons (gamepad_at g num))
              (to_uint (NK_GAMEPAD_BUTTON_FLAG button)) =? 0)
           && negb (Z.land (buttons_prev (gamepad_at g num))
                      (to_uint (NK_GAMEPAD_BUTTON_FLAG button)) =? 0)
  end.

Definition nk_gamepad_count (gamepads : option nk_gamepads) : Z :=
  match gamepads with
  | None => 0
  | Some _ => NK_GAMEPAD_MAX
  end.

(** The result is NULL ([None]) or the address of a name. *)
Definition nk_gamepad_name (gamepads : option nk_gamepads) (num : Z)
    : option (list ascii) :=
  match gamepads with
  | None => None
  | Some g =>
      if (num <? 0) || (num >=? NK_GAMEPAD_MAX)
         || negb (available (gamepad_at g num))
      then None
      else
        match NK_GAMEPAD_NAME B with
        | Some hook => hook g num
        | None => Some (name (gamepad_at g num))
        end
  end.

Definition nk_gamepad_user_data (gamepads : option nk_gamepads) : pointer :=
  match gamepads with
  | None => NULL
  | Some g => user_data g
  end.

(** An output parameter is NULL ([None]) or points to a cell ([Some]
    of its content); [if (out != NULL) *out = v]. *)
Definition store_if_not_null (out : option Z) (v : Z) : option Z :=
  match out with
  | None => None
  | Some _ => Some v
  end.

(** The result carries what the two output cells hold on return. *)
Definition nk_gamepad_any_button_pressed (gamepads : option nk_gamepads)
    (num : Z) (out_num out_button : option Z) : nk_bool * option Z * option Z :=
  match gamepads with
  | None => (nk_false, out_num, out_button)
  | Some g =>
      if num >=? NK_GAMEPAD_MAX then (nk_false, out_num, out_button)
      else if num <? 0 then
        match
          for_return (Z.to_nat NK_GAMEPAD_MAX) 0 (fun num =>
            for_return (Z.to_nat (NK_GAMEPAD_BUTTON_LAST - NK_GAMEPAD_BUTTON_FIRST))
              NK_GAMEPAD_BUTTON_FIRST (fun i =>
                if nk_gamepad_is_button_pressed (Some g) num i
                then Some (nk_true, store_if_not_null out_num num,
                           store_if_not_null out_button i)
                else None))
        with
        | Some r => r
        | None => (nk_false, out_num, out_button)
        end
      else if negb (available (gamepad_at g num))
      then (nk_false, out_num, out_button)
      else
        match
          for_return (Z.to_nat (NK_GAMEPAD_BUTTON_LAST - NK_GAMEPAD_BUTTON_FIRST))
            NK_GAMEPAD_BUTTON_FIRST (fun button =>
              if nk_gamepad_is_button_pressed (Some g) num button
              then Some (nk_true, store_if_not_null out_num num,
                         store_if_not_null out_button button)
              else None)
        with
        | Some r => r
        | None => (nk_false, out_num, out_button)
        end
  end.

Definition nk_gamepad_is_available (gamepads : option nk_gamepads) (num : Z)
    : nk_bool :=
  match gamepads with
  | None => nk_false
  | Some g =>
      if num <? 0 then
        match
          for_return (Z.to_nat NK_GAMEPAD_MAX) 0 (fun i =>
            if available (gamepad_at g i) then Some nk_true else None)
        with
        | Some r => r
        | None => nk_false
        end
      else if num >=? NK_GAMEPAD_MAX then nk_false
      else available (gamepad_at g num)
  end.

End Tracker.

Arguments nk_gamepad_init B gamepads ctx user_data : assert.
Arguments nk_gamepad_update B gamepads : assert.
Arguments nk_gamepad_name B gamepads num : assert.

(** ** What the properties speak about *)

(** What one iteration of the loop of nk_gamepad_update does to its slot. *)
Definition rotate_slot (p : nk_gamepad) : nk_gamepad :=
  if available p
  then {| available := available p; buttons := 0; buttons_prev := buttons p;
          name := name p; data := data p |}
  else p.

(** The edge conditions on one slot, bit by bit. *)
Definition rising_edge (p : nk_gamepad) (button : Z) : Prop :=
  Z.testbit (buttons_prev p) button = false /\ Z.testbit (buttons p) button = true.

Definition falling_edge (p : nk_gamepad) (button : Z) : Prop :=
  Z.testbit (buttons_prev p) button = true /\ Z.testbit (buttons p) button = false.

Definition valid_button (button : Z) : Prop :=
  NK_GAMEPAD_BUTTON_FIRST <= button < NK_GAMEPAD_BUTTON_LAST.

(** A mask carries only bits of button ordinals. *)
Definition mask_ok (m : Z) : Prop :=
  forall n, Z.testbit m n = true -> valid_button n.

Definition slot_masks_ok (p : nk_gamepad) : Prop :=
  mask_ok (buttons p) /\ mask_ok (buttons_prev p).

Definition masks_in_range (g : nk_gamepads) : Prop :=
  Forall slot_masks_ok (gamepads g).

(** The hooks of a backend that write the tracker keep a property of it. *)
Definition backend_preserves (P : nk_gamepads -> Prop) (B : backend) : Prop :=
  (forall hook g, NK_GAMEPAD_INIT B = Some hook -> P g -> P (snd (hook g)))
  /\ (forall hook g, NK_GAMEPAD_UPDATE B = Some hook -> P g -> P (hook g)).

(** The states of a tracker in use: a successful nk_gamepad_init, then
    any number of nk_gamepad_update and nk_gamepad_button calls, the
    latter with button ordinals taken from [legal]. *)
Inductive reachable (B : backend) (legal : Z -> Prop) : nk_gamepads -> Prop :=
  | reach_init gp c u g :
      nk_gamepad_init B gp c u = (nk_true, Some g) ->
      reachable B legal g
  | reach_update g g' :
      reachable B legal g ->
      nk_gamepad_update B (Some g) = Some g' ->
      reachable B legal g'
  | reach_button g num button down g' :
      reachable B legal g ->
      legal button ->
      nk_gamepad_button (Some g) num button down = Some g' ->
      reachable B legal g'.

(** (slot, button) pairs in scan order: slot-major, button-minor. *)
Definition scanned_before (s b s' b' : Z) : Prop :=
  s < s' \/ (s = s' /\ b < b').

(** The body of the loop of nk_gamepad_any_button_pressed over the
    buttons of slot [s], and that loop. *)
Definition report_pressed (g : nk_gamepads) (out_num out_button : option Z)
    (s b : Z) : option (nk_bool * option Z * option Z) :=
  if nk_gamepad_is_button_pressed (Some g) s b
  then Some (nk_true, store_if_not_null out_num s, store_if_not_null out_button b)
  else None.

Definition scan_buttons (g : nk_gamepads) (out_num out_button : option Z)
    (s : Z) : option (nk_bool * option Z * option Z) :=
  for_return (Z.to_nat (NK_GAMEPAD_BUTTON_LAST - NK_GAMEPAD_BUTTON_FIRST))
    NK_GAMEPAD_BUTTON_FIRST (report_pressed g out_num out_button s).

(** ** Sample backends and states *)

(** An init hook that finds no device for slot 1 and sees button A of
    slot 0 held. *)
Definition probing_backend : backend :=
  {| NK_GAMEPAD_INIT := Some (fun g =>
       let g := update_gamepad 1 (set_available nk_false) g in
       match nk_gamepad_button (Some g) 0 NK_GAMEPAD_BUTTON_A nk_true with
       | Some g => (nk_true, g)
       | None => (nk_false, g)
       end);
     NK_GAMEPAD_UPDATE := Some (fun g =>
       match nk_gamepad_button (Some g) 0 NK_GAMEPAD_BUTTON_A nk_true with
       | Some g => g
       | None => g
       end);
     NK_GAMEPAD_FREE := None;
     NK_GAMEPAD_NAME := None |}.

(** A backend whose init hook finds no usable driver. *)
Definition failing_backend : backend :=
  {| NK_GAMEPAD_INIT := Some (fun g => (nk_false, g));
     NK_GAMEPAD_UPDATE := None; NK_GAMEPAD_FREE := None;
     NK_GAMEPAD_NAME := None |}.

(** A name hook that reports the device name of the driver. *)
Definition naming_backend : backend :=
  {| NK_GAMEPAD_INIT := None; NK_GAMEPAD_UPDATE := None;
     NK_GAMEPAD_FREE := None;
     NK_GAMEPAD_NAME := Some (fun _ _ => Some (list_ascii_of_string "Xbox")) |}.

Definition pad (a : nk_bool) (cur prev : Z) : nk_gamepad :=
  {| available := a; buttons := cur; buttons_prev := prev;
     name := name zero_gamepad; data := NULL |}.

Definition tracker_of (l : list nk_gamepad) : nk_gamepads :=
  {| gamepads := l; ctx := NULL; user_data := NULL |}.

(** Slot 0 holds A, the unavailable slot 1 holds X. *)
Definition mixed_tracker : nk_gamepads :=
  tracker_of [pad true 16 0; pad false 64 2; pad true 0 0; pad true 0 0].

(** Slot 0 releases A while slot 2 presses it; slot 1 is unavailable. *)
Definition edges_tracker : nk_gamepads :=
  tracker_of [pad true 0 16; pad false 16 0; pad true 16 0; pad true 0 0].

(** Only slot 2 is available, and holds START. *)
Definition start_tracker : nk_gamepads :=
  tracker_of [pad false 0 0; pad false 0 0; pad true 2048 0; pad false 0 0].

(** Slots 0 and 1 both newly press X. *)
Definition both_press_x : nk_gamepads :=
  tracker_of [pad true 64 0; pad true 64 0; pad true 0 0; pad true 0 0].

(** The tracker right after nk_gamepad_init without a backend. *)
Definition fresh : nk_gamepads :=
  Eval vm_compute in
    match snd (nk_gamepad_init no_backend (Some nk_zero) NULL NULL) with
    | Some g => g
    | None => nk_zero
    end.

(** A short run with the probing backend: initialization, one update,
    then button B pressed on slot 0. *)
Definition played : nk_gamepads :=
  Eval vm_compute in
    match
      nk_gamepad_button
        (nk_gamepad_update probing_backend
           (snd (nk_gamepad_init probing_backend (Some nk_zero) NULL NULL)))
        0 NK_GAMEPAD_BUTTON_B nk_true
    with
    | Some g => g
    | None => nk_zero
    end.

(** [(mask & NK_GAMEPAD_BUTTON_FLAG(button)) != 0] *)
Definition flag_set (mask button : Z) : bool :=
  negb (Z.land mask (to_uint (NK_GAMEPAD_BUTTON_FLAG button)) =? 0).

(** The C string held by a character array: the characters before the
    first NUL. *)
Fixpoint c_string (s : list ascii) : list ascii :=
  match s with
  | [] => []
  | c :: r => if Ascii.eqb c zero then [] else c :: c_string r
  end.

(** What nk_gamepad_button leaves where it returns a tracker. *)
Definition after_button (g : nk_gamepads) (num button : Z) (down : nk_bool)
    : nk_gamepads :=
  match nk_gamepad_button (Some g) num button down with
  | Some g' => g'
  | None => g
  end.

(** A backend whose poll hook reports one button of one slot as held. *)
Definition holding_backend (num button : Z) : backend :=
  {| NK_GAMEPAD_INIT := None;
     NK_GAMEPAD_UPDATE := Some (fun g => after_button g num button nk_true);
     NK_GAMEPAD_FREE := None;
     NK_GAMEPAD_NAME := None |}.

(** What nk_gamepad_update leaves where it returns a tracker. *)
Definition after_update (B : backend) (g : nk_gamepads) : nk_gamepads :=
  match nk_gamepad_update B (Some g) with
  | Some g' => g'
  | None => g
  end.

(** The mask nk_gamepad_button stores: [mask |= FLAG] or [mask &= ~FLAG]. *)
Definition written_mask (mask button : Z) (down : nk_bool) : Z :=
  if down
  then Z.lor mask (to_uint (NK_GAMEPAD_BUTTON_FLAG button))
  else Z.land mask (to_uint (Z.lnot (NK_GAMEPAD_BUTTON_FLAG button))).

(** The slots nk_gamepad_button writes to. *)
Definition accepts (g : nk_gamepads) (num : Z) : Prop :=
  0 <= num < NK_GAMEPAD_MAX /\ available (gamepad_at g num) = true.

(** A mask is a value of [unsigned int]. *)
Definition fits_uint (m : Z) : Prop := to_uint m = m.

Definition slot_fits (p : nk_gamepad) : Prop :=
  fits_uint (buttons p) /\ fits_uint (buttons_prev p).

Definition masks_fit (g : nk_gamepads) : Prop :=
  Forall slot_fits (gamepads g).

(** ** Bits of a mask *)

Lemma to_uint_flag (button : Z) :
  0 <= button < 32 ->
  to_uint (NK_GAMEPAD_BUTTON_FLAG button) = 2 ^ button.
Proof.
  intros Hb. unfold to_uint, NK_GAMEPAD_BUTTON_FLAG.
  rewrite Z.shiftl_1_l. apply Z.mod_small. split.
  - apply Z.pow_nonneg. lia.
  - apply Z.pow_lt_mono_r; lia.
Qed.

Lemma land_pow2_eqb (m button : Z) :
  0 <= button ->
  (Z.land m (2 ^ button) =? 0) = negb (Z.testbit m button).
Proof.
  intros Hb. destruct (Z.testbit m button) eqn:Hbit; simpl.
  - apply Z.eqb_neq. intros Hz.
    assert (Hc : Z.testbit (Z.land m (2 ^ button)) button = true).
    { rewrite Z.land_spec, Hbit, Z.pow2_bits_true by lia. reflexivity. }
    rewrite Hz, Z.bits_0 in Hc. discriminate.
  - apply Z.eqb_eq. apply Z.bits_inj'. intros n Hn.
    rewrite Z.land_spec, Z.bits_0.
    destruct (Z.eq_dec button n) as [->|Hne].
    + rewrite Hbit. reflexivity.
    + rewrite Z.pow2_bits_false by lia. apply andb_false_r.
Qed.

(** The two tests of the source, [(mask & FLAG) == 0] and
    [(mask & FLAG) != 0], read one bit of the mask. *)
Lemma flag_test (m button : Z) :
  0 <= button < 32 ->
  (Z.land m (to_uint (NK_GAMEPAD_BUTTON_FLAG button)) =? 0)
  = negb (Z.testbit m button).
Proof.
  intros Hb. rewrite to_uint_flag by lia. apply land_pow2_eqb. lia.
Qed.

(** ** Loops *)

Lemma for_return_Some {R : Type} (n : nat) (lo : Z) (body : Z -> option R) (r : R) :
  for_return n lo body = Some r <->
  exists j, lo <= j < lo + Z.of_nat n /\ body j = Some r
            /\ forall k, lo <= k < j -> body k = None.
Proof.
  revert lo. induction n as [|n IH]; intros lo; simpl for_return.
  - split; [discriminate | intros (j & Hj & _); lia].
  - destruct (body lo) as [r0|] eqn:Hlo.
    + split.
      * intros [= ->]. exists lo. split; [lia|]. split; [assumption|].
        intros k Hk. lia.
      * intros (j & Hj & Hbj & Hmin).
        destruct (Z.eq_dec j lo) as [->|Hne]; [congruence|].
        rewrite Hmin in Hlo by lia. discriminate.
    + rewrite IH. split.
      * intros (j & Hj & Hbj & Hmin). exists j. split; [lia|].
        split; [assumption|]. intros k Hk.
        destruct (Z.eq_dec k lo) as [->|Hne]; [assumption | apply Hmin; lia].
      * intros (j & Hj & Hbj & Hmin).
        destruct (Z.eq_dec j lo) as [->|Hne]; [congruence|].
        exists j. split; [lia|]. split; [assumption|].
        intros k Hk. apply Hmin. lia.
Qed.

Lemma for_return_None {R : Type} (n : nat) (lo : Z) (body : Z -> option R) :
  for_return n lo body = None <->
  forall k, lo <= k < lo + Z.of_nat n -> body k = None.
Proof.
  revert lo. induction n as [|n IH]; intros lo; simpl for_return.
  - split; [intros _ k Hk; lia | reflexivity].
  - destruct (body lo) as [r0|] eqn:Hlo.
    + split; [discriminate|]. intros H. rewrite H in Hlo by lia. discriminate.
    + rewrite IH. split.
      * intros H k Hk.
        destruct (Z.eq_dec k lo) as [->|Hne]; [assumption | apply H; lia].
      * intros H k Hk. apply H. lia.
Qed.

Lemma for_each_ext {S : Type} (n : nat) (lo : Z) (f h : Z -> S -> S) (s : S) :
  (forall i x, lo <= i < lo + Z.of_nat n -> f i x = h i x) ->
  for_each n lo f s = for_each n lo h s.
Proof.
  revert lo s. induction n as [|n IH]; intros lo s Heq; simpl; [reflexivity|].
  rewrite Heq by lia. apply IH. intros i x Hi. apply Heq. lia.
Qed.

(** ** Reading and writing slots *)

Lemma gamepad_at_update (i k : Z) (f : nk_gamepad -> nk_gamepad) (g : nk_gamepads) :
  0 <= i -> 0 <= k ->
  gamepad_at (update_gamepad i f g) k
  = if decide (k = i /\ (Z.to_nat i < length (gamepads g))%nat)
    then f (gamepad_at g i) else gamepad_at g k.
Proof.
  intros Hi Hk. unfold gamepad_at, update_gamepad. simpl.
  destruct (decide (Z.to_nat i < length (gamepads g))%nat) as [Hlt|Hge].
  - rewrite list_lookup_total_insert by assumption.
    destruct (Z.eq_dec k i) as [->|Hne].
    + rewrite !decide_True by auto. reflexivity.
    + rewrite !decide_False by lia. reflexivity.
  - rewrite list_insert_ge by lia.
    rewrite decide_False by (intros [_ ?]; auto). reflexivity.
Qed.

Lemma gamepad_at_out_of_range (g : nk_gamepads) (i : Z) :
  (length (gamepads g) <= Z.to_nat i)%nat -> gamepad_at g i = zero_gamepad.
Proof.
  intros Hge. unfold gamepad_at. rewrite list_lookup_total_alt.
  rewrite lookup_ge_None_2 by assumption. reflexivity.
Qed.

Lemma update_gamepad_length (i : Z) (f : nk_gamepad -> nk_gamepad) (g : nk_gamepads) :
  length (gamepads (update_gamepad i f g)) = length (gamepads g).
Proof. unfold update_gamepad. simpl. apply length_insert. Qed.

(** A loop that rewrites slot [i] at iteration [i] leaves in every slot
    of its range the rewritten slot, and the others as they were. *)
Lemma for_each_update (n : nat) (lo : Z) (f : Z -> nk_gamepad -> nk_gamepad)
    (g : nk_gamepads) :
  0 <= lo ->
  let g' := for_each n lo (fun i g => update_gamepad i (f i) g) g in
  length (gamepads g') = length (gamepads g)
  /\ ctx g' = ctx g /\ user_data g' = user_data g
  /\ forall k, 0 <= k ->
       gamepad_at g' k
       = if decide (lo <= k < lo + Z.of_nat n
                    /\ (Z.to_nat k < length (gamepads g))%nat)
         then f k (gamepad_at g k) else gamepad_at g k.
Proof.
  revert lo g. induction n as [|n IH]; intros lo g Hlo; simpl.
  - repeat split; try reflexivity. intros k Hk.
    rewrite decide_False by lia. reflexivity.
  - destruct (IH (lo + 1) (update_gamepad lo (f lo) g)) as (Hlen & Hctx & Hud & Hat);
      [lia|].
    rewrite update_gamepad_length in Hlen, Hat.
    repeat split; try assumption. intros k Hk.
    rewrite Hat by assumption. rewrite gamepad_at_update by lia.
    destruct (Z.eq_dec k lo) as [->|Hne].
    + rewrite (decide_False (P := lo + 1 <= lo < _ /\ _)) by lia.
      destruct (decide (Z.to_nat lo < length (gamepads g))%nat) as [Hlt|Hge].
      * rewrite !decide_True by (auto; lia). reflexivity.
      * rewrite !decide_False by lia. reflexivity.
    + rewrite (decide_False (P := k = lo /\ _)) by lia.
      destruct (decide (lo + 1 <= k < lo + 1 + Z.of_nat n
                        /\ (Z.to_nat k < length (gamepads g))%nat)) as [Hin|Hout].
      * rewrite decide_True by lia. reflexivity.
      * rewrite decide_False by lia. reflexivity.
Qed.

Lemma update_gamepad_compose (i : Z) (f1 f2 : nk_gamepad -> nk_gamepad)
    (g : nk_gamepads) :
  0 <= i ->
  update_gamepad i f2 (update_gamepad i f1 g)
  = update_gamepad i (fun p => f2 (f1 p)) g.
Proof.
  intros Hi. unfold update_gamepad at 1. rewrite gamepad_at_update by lia.
  unfold update_gamepad. simpl. f_equal.
  destruct (decide (Z.to_nat i < length (gamepads g))%nat) as [Hlt|Hge].
  - rewrite decide_True by auto. apply list_insert_insert_eq.
  - rewrite !list_insert_ge by (rewrite ?length_insert; lia). reflexivity.
Qed.

Lemma update_gamepad_id (i : Z) (f : nk_gamepad -> nk_gamepad) (g : nk_gamepads) :
  f (gamepad_at g i) = gamepad_at g i -> update_gamepad i f g = g.
Proof.
  intros Hf. destruct g as [l c u]. unfold update_gamepad. simpl. f_equal.
  rewrite Hf. apply list_insert_id'. intros Hlt.
  unfold gamepad_at. simpl. apply list_lookup_lookup_total_lt. assumption.
Qed.

(** ** nk_gamepad_update *)

(** One iteration of the loop of nk_gamepad_update is one slot update. *)
Lemma rotate_iteration (i : Z) (g : nk_gamepads) :
  0 <= i ->
  (if negb (available (gamepad_at g i)) then g
   else
     let g := update_gamepad i (fun p => set_buttons_prev (buttons p) p) g in
     update_gamepad i (set_buttons 0) g)
  = update_gamepad i rotate_slot g.
Proof.
  intros Hi. destruct (available (gamepad_at g i)) eqn:Hav; simpl.
  - rewrite update_gamepad_compose by assumption.
    unfold update_gamepad. do 2 f_equal.
    unfold rotate_slot, set_buttons, set_buttons_prev. rewrite Hav. reflexivity.
  - symmetry. apply update_gamepad_id. unfold rotate_slot. rewrite Hav. reflexivity.
Qed.

Lemma rotate_masks_spec (g : nk_gamepads) :
  length (gamepads (rotate_masks g)) = length (gamepads g)
  /\ ctx (rotate_masks g) = ctx g
  /\ user_data (rotate_masks g) = user_data g
  /\ forall i, 0 <= i ->
       gamepad_at (rotate_masks g) i
       = if decide (i < NK_GAMEPAD_MAX) then rotate_slot (gamepad_at g i)
         else gamepad_at g i.
Proof.
  unfold rotate_masks.
  rewrite (for_each_ext _ _ _ (fun i g => update_gamepad i rotate_slot g))
    by (intros i x Hi; apply rotate_iteration; lia).
  destruct (for_each_update (Z.to_nat NK_GAMEPAD_MAX) 0 (fun _ => rotate_slot) g)
    as (Hlen & Hctx & Hud & Hat); [lia|].
  repeat split; try assumption. intros i Hi. rewrite Hat by assumption.
  destruct (decide (Z.to_nat i < length (gamepads g))%nat) as [Hlt|Hge].
  - destruct (decide (i < NK_GAMEPAD_MAX)) as [Hin|Hout].
    + rewrite decide_True by (unfold NK_GAMEPAD_MAX in *; lia). reflexivity.
    + rewrite decide_False by (unfold NK_GAMEPAD_MAX in *; lia). reflexivity.
  - rewrite decide_False by lia.
    rewrite gamepad_at_out_of_range by lia.
    destruct (decide (i < NK_GAMEPAD_MAX)); reflexivity.
Qed.

(** C1. nk_gamepad_update leaves a NULL tracker alone.  On a tracker it
    first runs its loop over all slots and only then hands the result to
    the backend poll hook (when there is one): in the state the hook
    receives, every available slot has its old current mask as previous
    mask and a zero current mask, every unavailable slot has both masks
    as before, and no other field of any slot or of the tracker has
    changed. *)
Theorem nk_gamepad_update_rotates_before_poll (B : backend) (g : nk_gamepads) (i : Z) :
  0 <= i < NK_GAMEPAD_MAX ->
  nk_gamepad_update B None = None
  /\ nk_gamepad_update B (Some g)
     = Some (match NK_GAMEPAD_UPDATE B with
             | Some hook => hook (rotate_masks g)
             | None => rotate_masks g
             end)
  /\ (available (gamepad_at g i) = true ->
      buttons_prev (gamepad_at (rotate_masks g) i) = buttons (gamepad_at g i)
      /\ buttons (gamepad_at (rotate_masks g) i) = 0)
  /\ (available (gamepad_at g i) = false ->
      buttons_prev (gamepad_at (rotate_masks g) i) = buttons_prev (gamepad_at g i)
      /\ buttons (gamepad_at (rotate_masks g) i) = buttons (gamepad_at g i))
  /\ available (gamepad_at (rotate_masks g) i) = available (gamepad_at g i)
  /\ name (gamepad_at (rotate_masks g) i) = name (gamepad_at g i)
  /\ data (gamepad_at (rotate_masks g) i) = data (gamepad_at g i)
  /\ length (gamepads (rotate_masks g)) = length (gamepads g)
  /\ ctx (rotate_masks g) = ctx g
  /\ user_data (rotate_masks g) = user_data g.
Proof.
  intros Hi.
  destruct (rotate_masks_spec g) as (Hlen & Hctx & Hud & Hat).
  specialize (Hat i ltac:(lia)). rewrite decide_True in Hat by lia.
  split; [reflexivity|]. split.
  { unfold nk_gamepad_update. destruct (NK_GAMEPAD_UPDATE B); reflexivity. }
  rewrite Hat. unfold rotate_slot.
  destruct (available (gamepad_at g i)) eqn:Hav; simpl;
    repeat split; try assumption; try reflexivity; try discriminate.
Qed.

Lemma nk_gamepad_update_rotates_before_poll_witness :
  nk_gamepad_update probing_backend (Some mixed_tracker)
  = Some (tracker_of [pad true 16 16; pad false 64 2; pad true 0 0; pad true 0 0])
  /\ buttons_prev (gamepad_at (rotate_masks mixed_tracker) 0) = 16
  /\ buttons (gamepad_at (rotate_masks mixed_tracker) 0) = 0.
Proof.
  destruct (nk_gamepad_update_rotates_before_poll probing_backend mixed_tracker 0)
    as (_ & Hrun & Hav & _); [unfold NK_GAMEPAD_MAX; lia|].
  split; [rewrite Hrun; reflexivity|].
  apply Hav. reflexivity.
Defined.

(** ** nk_gamepad_init *)

Lemma nk_gamepad_init_success (B : backend) (gp : option nk_gamepads)
    (c u : pointer) (g : nk_gamepads) :
  nk_gamepad_init B gp c u = (nk_true, Some g) ->
  exists g1, g = seed_previous g1
    /\ match NK_GAMEPAD_INIT B with
       | Some hook => hook (default_state c u) = (nk_true, g1)
       | None => g1 = default_state c u
       end.
Proof.
  unfold nk_gamepad_init. destruct gp as [g0|]; [|discriminate].
  destruct (NK_GAMEPAD_INIT B) as [hook|].
  - destruct (hook (default_state c u)) as [ok g1].
    destruct ok; simpl negb; cbv iota; [|discriminate].
    intros [= <-]. exists g1. split; reflexivity.
  - intros [= <-]. exists (default_state c u). split; reflexivity.
Qed.

Lemma seed_previous_spec (g : nk_gamepads) (i : Z) :
  0 <= i < NK_GAMEPAD_MAX ->
  buttons_prev (gamepad_at (seed_previous g) i) = buttons (gamepad_at (seed_previous g) i)
  /\ buttons (gamepad_at (seed_previous g) i) = buttons (gamepad_at g i)
  /\ available (gamepad_at (seed_previous g) i) = available (gamepad_at g i).
Proof.
  intros Hi. unfold seed_previous.
  destruct (for_each_update (Z.to_nat NK_GAMEPAD_MAX) 0
              (fun _ p => set_buttons_prev (buttons p) p) g)
    as (_ & _ & _ & Hat); [lia|].
  rewrite Hat by lia.
  destruct (decide (Z.to_nat i < length (gamepads g))%nat) as [Hlt|Hge].
  - rewrite decide_True by (unfold NK_GAMEPAD_MAX in *; lia).
    repeat split; reflexivity.
  - rewrite decide_False by lia.
    rewrite gamepad_at_out_of_range by lia. repeat split; reflexivity.
Qed.

(** Where the two masks of a slot agree, neither edge test of the source
    succeeds, whatever the flag. *)
Lemma no_edge_when_equal (m f : Z) :
  (Z.land m f =? 0) && negb (Z.land m f =? 0) = false.
Proof. destruct (Z.land m f =? 0); reflexivity. Qed.

Lemma no_edges_when_seeded (g : nk_gamepads) (num button : Z) :
  (forall i, 0 <= i < NK_GAMEPAD_MAX ->
     buttons_prev (gamepad_at g i) = buttons (gamepad_at g i)) ->
  nk_gamepad_is_button_pressed (Some g) num button = false
  /\ nk_gamepad_is_button_released (Some g) num button = false.
Proof.
  intros Heq. unfold nk_gamepad_is_button_pressed, nk_gamepad_is_button_released.
  destruct (num <? 0) eqn:Hneg.
  - assert (Hp : forall R (body : Z -> option R),
               (forall k, 0 <= k < NK_GAMEPAD_MAX -> body k = None) ->
               for_return (Z.to_nat NK_GAMEPAD_MAX) 0 body = None).
    { intros R body Hb. apply for_return_None. intros k Hk. apply Hb.
      unfold NK_GAMEPAD_MAX in *. lia. }
    rewrite !Hp; [split; reflexivity | |].
    + intros k Hk. rewrite (Heq k Hk), no_edge_when_equal.
      destruct (negb _); reflexivity.
    + intros k Hk. rewrite (Heq k Hk), no_edge_when_equal.
      destruct (negb _); reflexivity.
  - destruct (num >=? NK_GAMEPAD_MAX) eqn:Hhi; simpl; [split; reflexivity|].
    destruct (negb (available (gamepad_at g num))); [split; reflexivity|].
    rewrite Heq by lia. rewrite !no_edge_when_equal. split; reflexivity.
Qed.

(** C2 (amended). After a successful nk_gamepad_init every slot has its
    previous mask equal to its current mask, so nk_gamepad_is_button_pressed
    and nk_gamepad_is_button_released are false for every slot index and
    every button; when no backend init hook is configured, both masks
    of every slot are moreover zero and every slot is available. *)
Theorem nk_gamepad_init_no_edges (B : backend) (gp : option nk_gamepads)
    (c u : pointer) (g : nk_gamepads) (i num button : Z) :
  nk_gamepad_init B gp c u = (nk_true, Some g) ->
  0 <= i < NK_GAMEPAD_MAX ->
  buttons_prev (gamepad_at g i) = buttons (gamepad_at g i)
  /\ nk_gamepad_is_button_pressed (Some g) num button = false
  /\ nk_gamepad_is_button_released (Some g) num button = false
  /\ (NK_GAMEPAD_INIT B = None ->
      buttons (gamepad_at g i) = 0 /\ buttons_prev (gamepad_at g i) = 0
      /\ available (gamepad_at g i) = true).
Proof.
  intros Hinit Hi.
  destruct (nk_gamepad_init_success _ _ _ _ _ Hinit) as [g1 [-> Hg1]].
  split; [apply seed_previous_spec; assumption|].
  split; [apply no_edges_when_seeded; intros k Hk; apply seed_previous_spec; assumption|].
  split; [apply no_edges_when_seeded; intros k Hk; apply seed_previous_spec; assumption|].
  intros Hnone. rewrite Hnone in Hg1. subst g1.
  assert (Hlist : gamepads (seed_previous (default_state c u)) = gamepads fresh)
    by reflexivity.
  unfold gamepad_at. rewrite Hlist.
  assert (Hcases : i = 0 \/ i = 1 \/ i = 2 \/ i = 3)
    by (unfold NK_GAMEPAD_MAX in Hi; lia).
  destruct Hcases as [-> | [-> | [-> | ->]]]; repeat split; reflexivity.
Qed.

Lemma nk_gamepad_init_no_edges_witness :
  buttons_prev (gamepad_at fresh 2) = buttons (gamepad_at fresh 2)
  /\ nk_gamepad_is_button_pressed (Some fresh) (-1) NK_GAMEPAD_BUTTON_A = false
  /\ nk_gamepad_is_button_released (Some fresh) (-1) NK_GAMEPAD_BUTTON_A = false
  /\ (NK_GAMEPAD_INIT no_backend = None ->
      buttons (gamepad_at fresh 2) = 0 /\ buttons_prev (gamepad_at fresh 2) = 0
      /\ available (gamepad_at fresh 2) = true).
Proof.
  apply (nk_gamepad_init_no_edges no_backend (Some nk_zero) NULL NULL fresh 2
           (-1) NK_GAMEPAD_BUTTON_A).
  - reflexivity.
  - unfold NK_GAMEPAD_MAX. lia.
Defined.

(** C2, as stated, fails with a backend whose init hook marks a slot
    unavailable and records a held button: initialization succeeds, slot
    1 is not available and the masks of slot 0 are not zero. *)
Lemma nk_gamepad_init_hook_counterexample :
  exists g,
    nk_gamepad_init probing_backend (Some nk_zero) NULL NULL = (nk_true, Some g)
    /\ available (gamepad_at g 1) = false
    /\ buttons (gamepad_at g 0) = 16
    /\ buttons_prev (gamepad_at g 0) = 16.
Proof.
  eexists. split; [vm_compute; reflexivity|].
  repeat split; reflexivity.
Qed.

(** ** Bits carried by the masks *)

Lemma mask_ok_zero : mask_ok 0.
Proof. intros n Hn. rewrite Z.bits_0 in Hn. discriminate. Qed.

Lemma mask_ok_set (m button : Z) :
  mask_ok m -> valid_button button ->
  mask_ok (Z.lor m (to_uint (NK_GAMEPAD_BUTTON_FLAG button))).
Proof.
  intros Hm Hb n Hn. unfold valid_button, NK_GAMEPAD_BUTTON_FIRST,
    NK_GAMEPAD_BUTTON_LAST in Hb.
  rewrite to_uint_flag in Hn by lia.
  rewrite Z.lor_spec in Hn. apply orb_true_iff in Hn as [Hn|Hn].
  - apply Hm. assumption.
  - destruct (Z.eq_dec button n) as [<-|Hne]; [exact Hb|].
    destruct (Z.neg_nonneg_cases n) as [Hneg|Hpos].
    + rewrite Z.testbit_neg_r in Hn by assumption. discriminate.
    + rewrite Z.pow2_bits_false in Hn by lia. discriminate.
Qed.

Lemma mask_ok_clear (m f : Z) : mask_ok m -> mask_ok (Z.land m f).
Proof.
  intros Hm n Hn. rewrite Z.land_spec in Hn.
  apply andb_true_iff in Hn as [Hn _]. apply Hm. assumption.
Qed.

Lemma zero_gamepad_masks_ok : slot_masks_ok zero_gamepad.
Proof. split; apply mask_ok_zero. Qed.

Lemma gamepad_at_masks_ok (g : nk_gamepads) (i : Z) :
  masks_in_range g -> slot_masks_ok (gamepad_at g i).
Proof.
  intros Hg. unfold gamepad_at. rewrite list_lookup_total_alt.
  destruct (gamepads g !! Z.to_nat i) as [p|] eqn:Hp; simpl.
  - exact (Forall_lookup_1 _ _ _ _ Hg Hp).
  - apply zero_gamepad_masks_ok.
Qed.

Lemma update_gamepad_masks_ok (i : Z) (f : nk_gamepad -> nk_gamepad)
    (g : nk_gamepads) :
  masks_in_range g ->
  (forall p, slot_masks_ok p -> slot_masks_ok (f p)) ->
  masks_in_range (update_gamepad i f g).
Proof.
  intros Hg Hf. unfold masks_in_range, update_gamepad. simpl.
  apply Forall_insert; [assumption|].
  apply Hf, gamepad_at_masks_ok. assumption.
Qed.

Lemma for_each_invariant {S : Type} (P : S -> Prop) (n : nat) (lo : Z)
    (body : Z -> S -> S) (s : S) :
  (forall i x, P x -> P (body i x)) -> P s -> P (for_each n lo body s).
Proof.
  intros Hbody. revert lo s. induction n as [|n IH]; intros lo s Hs; simpl.
  - assumption.
  - apply IH, Hbody, Hs.
Qed.

Lemma default_state_masks_ok (c u : pointer) : masks_in_range (default_state c u).
Proof.
  unfold default_state. apply for_each_invariant.
  - intros i x Hx. apply update_gamepad_masks_ok; [|intros p Hp; exact Hp].
    apply for_each_invariant.
    + intros j y Hy. apply update_gamepad_masks_ok; [assumption|].
      intros p Hp. exact Hp.
    + apply update_gamepad_masks_ok; [assumption|]. intros p Hp. exact Hp.
  - unfold masks_in_range, set_user_data, set_ctx, nk_zero. cbn [gamepads].
    apply Forall_replicate, zero_gamepad_masks_ok.
Qed.

Lemma seed_previous_masks_ok (g : nk_gamepads) :
  masks_in_range g -> masks_in_range (seed_previous g).
Proof.
  intros Hg. unfold seed_previous. apply for_each_invariant; [|assumption].
  intros i x Hx. apply update_gamepad_masks_ok; [assumption|].
  intros p [Hcur _]. split; exact Hcur.
Qed.

Lemma rotate_masks_masks_ok (g : nk_gamepads) :
  masks_in_range g -> masks_in_range (rotate_masks g).
Proof.
  intros Hg. unfold rotate_masks. apply for_each_invariant; [|assumption].
  intros i x Hx. destruct (negb (available (gamepad_at x i))); [assumption|].
  apply update_gamepad_masks_ok.
  - apply update_gamepad_masks_ok; [assumption|].
    intros p [Hcur _]. split; exact Hcur.
  - intros p [_ Hprev]. split; [apply mask_ok_zero | exact Hprev].
Qed.

Lemma nk_gamepad_button_masks_ok (g g' : nk_gamepads) (num button : Z)
    (down : nk_bool) :
  masks_in_range g -> valid_button button ->
  nk_gamepad_button (Some g) num button down = Some g' ->
  masks_in_range g'.
Proof.
  intros Hg Hb. unfold nk_gamepad_button.
  destruct ((num <? 0) || (num >=? NK_GAMEPAD_MAX)
            || negb (available (gamepad_at g num))).
  - intros [= <-]. assumption.
  - destruct down; intros [= <-]; apply update_gamepad_masks_ok; try assumption.
    + intros p [Hcur Hprev]. split; [|exact Hprev].
      apply mask_ok_set; assumption.
    + intros p [Hcur Hprev]. split; [|exact Hprev].
      apply mask_ok_clear; assumption.
Qed.

Lemma probing_backend_preserves : backend_preserves masks_in_range probing_backend.
Proof.
  assert (Hvalid : valid_button NK_GAMEPAD_BUTTON_A) by (vm_compute; split; congruence).
  assert (Hpress : forall g, masks_in_range g ->
            masks_in_range (update_gamepad 0 (fun p =>
              set_buttons (Z.lor (buttons p)
                (to_uint (NK_GAMEPAD_BUTTON_FLAG NK_GAMEPAD_BUTTON_A))) p) g)).
  { intros g Hg. apply update_gamepad_masks_ok; [assumption|].
    intros p [Hcur Hprev]. split; [|exact Hprev]. apply mask_ok_set; assumption. }
  split; intros hook g [= <-] Hg.
  - set (g1 := update_gamepad 1 (set_available nk_false) g).
    assert (Hg1 : masks_in_range g1)
      by (apply update_gamepad_masks_ok; [assumption | intros p Hp; exact Hp]).
    destruct (available (gamepad_at g1 0)); cbn [negb snd];
      [apply Hpress|]; exact Hg1.
  - destruct (available (gamepad_at g 0)); cbn [negb];
      [apply Hpress|]; exact Hg.
Qed.

(** C3 (amended). With a backend whose hooks keep the masks within the
    button ordinals, every state reached from a successful
    nk_gamepad_init by nk_gamepad_update and by nk_gamepad_button calls
    with a button ordinal in [FIRST, LAST) has, in the current and the
    previous mask of every slot, only bits of ordinals in [FIRST, LAST). *)
Theorem masks_stay_in_range (B : backend) (g : nk_gamepads) (i n : Z) :
  backend_preserves masks_in_range B ->
  reachable B valid_button g ->
  (Z.testbit (buttons (gamepad_at g i)) n = true
   \/ Z.testbit (buttons_prev (gamepad_at g i)) n = true) ->
  NK_GAMEPAD_BUTTON_FIRST <= n < NK_GAMEPAD_BUTTON_LAST.
Proof.
  intros [Hinit Hupdate] Hreach.
  assert (Hok : masks_in_range g).
  { induction Hreach as [gp c u g Hrun | g g' _ IH Hrun | g num button down g' _ IH Hb Hrun].
    - destruct (nk_gamepad_init_success _ _ _ _ _ Hrun) as [g1 [-> Hg1]].
      apply seed_previous_masks_ok.
      destruct (NK_GAMEPAD_INIT B) as [hook|] eqn:Hhook.
      + specialize (Hinit hook (default_state c u) eq_refl
                      (default_state_masks_ok c u)).
        rewrite Hg1 in Hinit. exact Hinit.
      + subst g1. apply default_state_masks_ok.
    - unfold nk_gamepad_update in Hrun.
      destruct (NK_GAMEPAD_UPDATE B) as [hook|] eqn:Hhook;
        injection Hrun as <-.
      + apply (Hupdate hook _ eq_refl), rotate_masks_masks_ok, IH.
      + apply rotate_masks_masks_ok, IH.
    - exact (nk_gamepad_button_masks_ok _ _ _ _ _ IH Hb Hrun). }
  destruct (gamepad_at_masks_ok g i Hok) as [Hcur Hprev].
  intros [Hbit|Hbit]; [apply Hcur | apply Hprev]; exact Hbit.
Qed.

Lemma masks_stay_in_range_witness :
  Z.testbit (buttons (gamepad_at played 0)) 5 = true
  /\ NK_GAMEPAD_BUTTON_FIRST <= 5 < NK_GAMEPAD_BUTTON_LAST.
Proof.
  split; [reflexivity|].
  apply (masks_stay_in_range probing_backend played 0 5).
  - exact probing_backend_preserves.
  - eapply (reach_button _ _ _ 0 NK_GAMEPAD_BUTTON_B nk_true).
    + eapply reach_update.
      * apply (reach_init _ _ (Some nk_zero) NULL NULL). vm_compute. reflexivity.
      * vm_compute. reflexivity.
    + vm_compute. split; congruence.
    + vm_compute. reflexivity.
  - left. reflexivity.
Defined.

(** C3, as stated, fails: nk_gamepad_button does not look at the button
    ordinal.  On the freshly initialized tracker, pressing ordinal
    NK_GAMEPAD_BUTTON_LAST on slot 0 is not a no-op; it sets bit 12 of
    the current mask. *)
Lemma nk_gamepad_button_ordinal_counterexample :
  exists g,
    nk_gamepad_init no_backend (Some nk_zero) NULL NULL = (nk_true, Some fresh)
    /\ ~ valid_button NK_GAMEPAD_BUTTON_LAST
    /\ nk_gamepad_button (Some fresh) 0 NK_GAMEPAD_BUTTON_LAST nk_true = Some g
    /\ g <> fresh
    /\ Z.testbit (buttons (gamepad_at g 0)) NK_GAMEPAD_BUTTON_LAST = true
    /\ reachable no_backend (fun _ => True) g.
Proof.
  eexists. split; [reflexivity|].
  split; [unfold valid_button; lia|].
  split; [vm_compute; reflexivity|].
  split; [discriminate|].
  split; [reflexivity|].
  apply (reach_button _ _ fresh 0 NK_GAMEPAD_BUTTON_LAST nk_true);
    [ apply (reach_init _ _ (Some nk_zero) NULL NULL); reflexivity
    | exact I | reflexivity ].
Qed.

(** ** Queries *)

(** The loop shared by the three button queries for a negative slot
    index: it succeeds exactly when some available slot passes the test. *)
Lemma any_slot_loop (g : nk_gamepads) (test : nk_gamepad -> bool) :
  match
    for_return (Z.to_nat NK_GAMEPAD_MAX) 0 (fun i =>
      if negb (available (gamepad_at g i)) then None
      else if test (gamepad_at g i) then Some nk_true else None)
  with
  | Some r => r
  | None => nk_false
  end = true
  <-> exists i, 0 <= i < NK_GAMEPAD_MAX
        /\ available (gamepad_at g i) = true /\ test (gamepad_at g i) = true.
Proof.
  match goal with
  | |- match ?l with _ => _ end = true <-> _ => destruct l as [r|] eqn:Hloop
  end.
  - apply for_return_Some in Hloop as (j & Hj & Hbody & _).
    destruct (available (gamepad_at g j)) eqn:Hav; simpl in Hbody; [|discriminate].
    destruct (test (gamepad_at g j)) eqn:Ht; [|discriminate].
    injection Hbody as <-. split; [|reflexivity].
    intros _. exists j. unfold NK_GAMEPAD_MAX in *. repeat split; (lia || assumption).
  - split; [discriminate|]. intros (i & Hi & Hav & Ht).
    rewrite for_return_None in Hloop.
    specialize (Hloop i ltac:(unfold NK_GAMEPAD_MAX in *; lia)).
    rewrite Hav, Ht in Hloop. discriminate.
Qed.

Lemma pressed_test (p : nk_gamepad) (button : Z) :
  valid_button button ->
  (Z.land (buttons_prev p) (to_uint (NK_GAMEPAD_BUTTON_FLAG button)) =? 0)
  && negb (Z.land (buttons p) (to_uint (NK_GAMEPAD_BUTTON_FLAG button)) =? 0)
  = true
  <-> rising_edge p button.
Proof.
  intros Hb. unfold valid_button, NK_GAMEPAD_BUTTON_FIRST,
    NK_GAMEPAD_BUTTON_LAST in Hb.
  rewrite !flag_test by lia. unfold rising_edge.
  destruct (Z.testbit (buttons_prev p) button), (Z.testbit (buttons p) button);
    simpl; intuition congruence.
Qed.

Lemma released_test (p : nk_gamepad) (button : Z) :
  valid_button button ->
  (Z.land (buttons p) (to_uint (NK_GAMEPAD_BUTTON_FLAG button)) =? 0)
  && negb (Z.land (buttons_prev p) (to_uint (NK_GAMEPAD_BUTTON_FLAG button)) =? 0)
  = true
  <-> falling_edge p button.
Proof.
  intros Hb. unfold valid_button, NK_GAMEPAD_BUTTON_FIRST,
    NK_GAMEPAD_BUTTON_LAST in Hb.
  rewrite !flag_test by lia. unfold falling_edge.
  destruct (Z.testbit (buttons_prev p) button), (Z.testbit (buttons p) button);
    simpl; intuition congruence.
Qed.

Lemma down_test (p : nk_gamepad) (button : Z) :
  valid_button button ->
  negb (Z.land (buttons p) (to_uint (NK_GAMEPAD_BUTTON_FLAG button)) =? 0)
  = Z.testbit (buttons p) button.
Proof.
  intros Hb. unfold valid_button, NK_GAMEPAD_BUTTON_FIRST,
    NK_GAMEPAD_BUTTON_LAST in Hb.
  rewrite flag_test by lia. apply negb_involutive.
Qed.

(** A query on one slot: out of range and unavailable give false. *)
Lemma one_slot_query (g : nk_gamepads) (num : Z) (test : bool) :
  (if (num >=? NK_GAMEPAD_MAX) || negb (available (gamepad_at g num))
   then nk_false else test) = true
  <-> num < NK_GAMEPAD_MAX /\ available (gamepad_at g num) = true /\ test = true.
Proof.
  destruct (Z.geb_spec num NK_GAMEPAD_MAX) as [Hge|Hlt]; simpl.
  - split; [discriminate | intros (Hlt & _); lia].
  - destruct (available (gamepad_at g num)); simpl.
    + split; [intros ->; auto | intros (_ & _ & ->); reflexivity].
    + split; [discriminate | intros (_ & Hav & _); discriminate].
Qed.

Lemma pressed_on_slot (g : nk_gamepads) (num button : Z) :
  valid_button button -> 0 <= num ->
  nk_gamepad_is_button_pressed (Some g) num button = true
  <-> num < NK_GAMEPAD_MAX /\ available (gamepad_at g num) = true
      /\ rising_edge (gamepad_at g num) button.
Proof.
  intros Hb Hnum. unfold nk_gamepad_is_button_pressed.
  destruct (Z.ltb_spec num 0) as [Hneg|_]; [lia|].
  rewrite one_slot_query, pressed_test by assumption. reflexivity.
Qed.

Lemma released_on_slot (g : nk_gamepads) (num button : Z) :
  valid_button button -> 0 <= num ->
  nk_gamepad_is_button_released (Some g) num button = true
  <-> num < NK_GAMEPAD_MAX /\ available (gamepad_at g num) = true
      /\ falling_edge (gamepad_at g num) button.
Proof.
  intros Hb Hnum. unfold nk_gamepad_is_button_released.
  destruct (Z.ltb_spec num 0) as [Hneg|_]; [lia|].
  rewrite one_slot_query, released_test by assumption. reflexivity.
Qed.

(** C4. For a button of the enumeration, nk_gamepad_is_button_pressed
    with a non-negative slot index is true exactly when the index is
    below NK_GAMEPAD_MAX, the slot is available, and the bit of the button
    is clear in buttons_prev and set in buttons; with a negative index it
    is true exactly when some available slot has, in its own two masks,
    the bit clear in buttons_prev and set in buttons. *)
Theorem nk_gamepad_is_button_pressed_spec (g : nk_gamepads) (num button : Z) :
  valid_button button ->
  (0 <= num ->
   (nk_gamepad_is_button_pressed (Some g) num button = true
    <-> num < NK_GAMEPAD_MAX /\ available (gamepad_at g num) = true
        /\ Z.testbit (buttons_prev (gamepad_at g num)) button = false
        /\ Z.testbit (buttons (gamepad_at g num)) button = true))
  /\ (num < 0 ->
      (nk_gamepad_is_button_pressed (Some g) num button = true
       <-> exists i, 0 <= i < NK_GAMEPAD_MAX
             /\ available (gamepad_at g i) = true
             /\ Z.testbit (buttons_prev (gamepad_at g i)) button = false
             /\ Z.testbit (buttons (gamepad_at g i)) button = true)).
Proof.
  intros Hb. split; intros Hnum.
  - rewrite pressed_on_slot by assumption. unfold rising_edge. reflexivity.
  - unfold nk_gamepad_is_button_pressed. destruct (Z.ltb_spec num 0) as [_|Hpos]; [|lia].
    rewrite (any_slot_loop g (fun p =>
      (Z.land (buttons_prev p) (to_uint (NK_GAMEPAD_BUTTON_FLAG button)) =? 0)
      && negb (Z.land (buttons p) (to_uint (NK_GAMEPAD_BUTTON_FLAG button)) =? 0))).
    split; intros (i & Hi & Hav & Ht); exists i; repeat split;
      try assumption; try lia; apply (pressed_test _ _ Hb); assumption.
Qed.

Lemma nk_gamepad_is_button_pressed_spec_witness :
  nk_gamepad_is_button_pressed (Some edges_tracker) (-1) NK_GAMEPAD_BUTTON_A = true.
Proof.
  assert (Hvalid : valid_button NK_GAMEPAD_BUTTON_A) by (vm_compute; split; congruence).
  destruct (nk_gamepad_is_button_pressed_spec edges_tracker (-1)
              NK_GAMEPAD_BUTTON_A Hvalid) as [_ Hany].
  apply Hany; [lia|]. exists 2. unfold NK_GAMEPAD_MAX.
  repeat split; (lia || reflexivity).
Defined.

(** C5. For a button of the enumeration and a non-negative slot index,
    nk_gamepad_is_button_released is true exactly when the index is below
    NK_GAMEPAD_MAX, the slot is available, and the bit of the button is
    set in buttons_prev and clear in buttons; hence
    nk_gamepad_is_button_pressed and nk_gamepad_is_button_released are
    never both true for the same slot and button. *)
Theorem nk_gamepad_is_button_released_spec (g : nk_gamepads) (num button : Z) :
  valid_button button ->
  0 <= num ->
  (nk_gamepad_is_button_released (Some g) num button = true
   <-> num < NK_GAMEPAD_MAX /\ available (gamepad_at g num) = true
       /\ Z.testbit (buttons_prev (gamepad_at g num)) button = true
       /\ Z.testbit (buttons (gamepad_at g num)) button = false)
  /\ ~ (nk_gamepad_is_button_pressed (Some g) num button = true
        /\ nk_gamepad_is_button_released (Some g) num button = true).
Proof.
  intros Hb Hnum. split.
  - rewrite released_on_slot by assumption. unfold falling_edge. reflexivity.
  - intros [Hp Hr].
    apply pressed_on_slot in Hp; [|assumption..].
    apply released_on_slot in Hr; [|assumption..].
    destruct Hp as (_ & _ & Hprev & _). destruct Hr as (_ & _ & Hprev' & _).
    congruence.
Qed.

Lemma nk_gamepad_is_button_released_spec_witness :
  nk_gamepad_is_button_released (Some edges_tracker) 0 NK_GAMEPAD_BUTTON_A = true
  /\ nk_gamepad_is_button_pressed (Some edges_tracker) 0 NK_GAMEPAD_BUTTON_A <> true.
Proof.
  assert (Hvalid : valid_button NK_GAMEPAD_BUTTON_A) by (vm_compute; split; congruence).
  destruct (nk_gamepad_is_button_released_spec edges_tracker 0
              NK_GAMEPAD_BUTTON_A Hvalid) as [Hrel Hexcl]; [lia|].
  assert (Hr : nk_gamepad_is_button_released (Some edges_tracker) 0
                 NK_GAMEPAD_BUTTON_A = true).
  { apply Hrel. unfold NK_GAMEPAD_MAX. repeat split; (lia || reflexivity). }
  split; [exact Hr|]. intros Hp. apply Hexcl. split; assumption.
Defined.

(** The exclusion is per slot: asked about any slot (a negative index),
    both queries can be true at once, one slot pressing the button and
    another releasing it. *)
Remark any_slot_pressed_and_released :
  nk_gamepad_is_button_pressed (Some edges_tracker) (-1) NK_GAMEPAD_BUTTON_A = true
  /\ nk_gamepad_is_button_released (Some edges_tracker) (-1) NK_GAMEPAD_BUTTON_A
     = true.
Proof. split; reflexivity. Qed.

(** C7. nk_gamepad_is_button_down is false on a NULL tracker.  For a
    button of the enumeration: with a negative slot index it is true
    exactly when some available slot has the bit of the button set in
    buttons; with a non-negative index it is false when the index is not
    below NK_GAMEPAD_MAX or the slot is unavailable, and is otherwise the
    bit of the button in buttons of that slot. *)
Theorem nk_gamepad_is_button_down_spec (g : nk_gamepads) (num button : Z) :
  valid_button button ->
  nk_gamepad_is_button_down None num button = false
  /\ (num < 0 ->
      (nk_gamepad_is_button_down (Some g) num button = true
       <-> exists i, 0 <= i < NK_GAMEPAD_MAX
             /\ available (gamepad_at g i) = true
             /\ Z.testbit (buttons (gamepad_at g i)) button = true))
  /\ (0 <= num ->
      NK_GAMEPAD_MAX <= num \/ available (gamepad_at g num) = false ->
      nk_gamepad_is_button_down (Some g) num button = false)
  /\ (0 <= num < NK_GAMEPAD_MAX ->
      available (gamepad_at g num) = true ->
      nk_gamepad_is_button_down (Some g) num button
      = Z.testbit (buttons (gamepad_at g num)) button).
Proof.
  intros Hb. split; [reflexivity|]. unfold nk_gamepad_is_button_down.
  split; [|split].
  - intros Hneg. destruct (Z.ltb_spec num 0) as [_|Hpos]; [|lia].
    rewrite (any_slot_loop g (fun p =>
      negb (Z.land (buttons p) (to_uint (NK_GAMEPAD_BUTTON_FLAG button)) =? 0))).
    split; intros (i & Hi & Hav & Ht); exists i; repeat split;
      try assumption; try lia.
    + rewrite <- (down_test _ _ Hb). exact Ht.
    + cbv beta. rewrite (down_test _ _ Hb). exact Ht.
  - intros Hpos Hout. destruct (Z.ltb_spec num 0) as [Hneg|_]; [lia|].
    destruct Hout as [Hge|Hav].
    + destruct (Z.geb_spec num NK_GAMEPAD_MAX) as [_|Hlt]; [reflexivity | lia].
    + rewrite Hav. simpl. rewrite orb_true_r. reflexivity.
  - intros Hin Hav. destruct (Z.ltb_spec num 0) as [Hneg|_]; [lia|].
    destruct (Z.geb_spec num NK_GAMEPAD_MAX) as [Hge|_]; [lia|].
    rewrite Hav. simpl. apply down_test. assumption.
Qed.

(** The scenario of a tracker whose only available slot, slot 2, holds
    START. *)
Lemma nk_gamepad_is_button_down_spec_witness :
  nk_gamepad_is_button_down (Some start_tracker) (-1) NK_GAMEPAD_BUTTON_START = true
  /\ nk_gamepad_is_button_down (Some start_tracker) (-1) NK_GAMEPAD_BUTTON_BACK = false
  /\ nk_gamepad_is_available (Some start_tracker) (-1) = true.
Proof.
  assert (Hvalid : valid_button NK_GAMEPAD_BUTTON_START)
    by (vm_compute; split; congruence).
  destruct (nk_gamepad_is_button_down_spec start_tracker (-1)
              NK_GAMEPAD_BUTTON_START Hvalid) as (_ & Hany & _).
  split; [|split; reflexivity].
  apply Hany; [lia|]. exists 2. unfold NK_GAMEPAD_MAX.
  repeat split; (lia || reflexivity).
Defined.

(** ** nk_gamepad_any_button_pressed *)

Section Scan.

Variables (g : nk_gamepads) (out_num out_button : option Z).

(** nk_gamepad_any_button_pressed in terms of its loops. *)
Lemma nk_gamepad_any_button_pressed_loops (num : Z) :
  nk_gamepad_any_button_pressed (Some g) num out_num out_button
  = if num >=? NK_GAMEPAD_MAX then (nk_false, out_num, out_button)
    else if num <? 0 then
      match for_return (Z.to_nat NK_GAMEPAD_MAX) 0
              (scan_buttons g out_num out_button) with
      | Some r => r
      | None => (nk_false, out_num, out_button)
      end
    else if negb (available (gamepad_at g num))
    then (nk_false, out_num, out_button)
    else
      match scan_buttons g out_num out_button num with
      | Some r => r
      | None => (nk_false, out_num, out_button)
      end.
Proof. reflexivity. Qed.

Lemma scan_buttons_found (s b : Z) :
  valid_button b ->
  nk_gamepad_is_button_pressed (Some g) s b = true ->
  (forall b', valid_button b' -> b' < b ->
     nk_gamepad_is_button_pressed (Some g) s b' = false) ->
  scan_buttons g out_num out_button s
  = Some (nk_true, store_if_not_null out_num s, store_if_not_null out_button b).
Proof.
  intros Hb Hp Hmin. apply for_return_Some. exists b.
  unfold valid_button, NK_GAMEPAD_BUTTON_FIRST, NK_GAMEPAD_BUTTON_LAST in *.
  split; [lia|]. split.
  - unfold report_pressed. rewrite Hp. reflexivity.
  - intros k Hk. unfold report_pressed. rewrite Hmin by lia. reflexivity.
Qed.

Lemma scan_buttons_none (s : Z) :
  (forall b, valid_button b -> nk_gamepad_is_button_pressed (Some g) s b = false) ->
  scan_buttons g out_num out_button s = None.
Proof.
  intros Hnone. apply for_return_None. intros k Hk. unfold report_pressed.
  rewrite Hnone; [reflexivity|].
  unfold valid_button, NK_GAMEPAD_BUTTON_FIRST, NK_GAMEPAD_BUTTON_LAST in *. lia.
Qed.

Lemma scan_buttons_result (s : Z) (r : nk_bool * option Z * option Z) :
  scan_buttons g out_num out_button s = Some r ->
  exists b, valid_button b
    /\ nk_gamepad_is_button_pressed (Some g) s b = true
    /\ r = (nk_true, store_if_not_null out_num s, store_if_not_null out_button b).
Proof.
  intros Hscan. apply for_return_Some in Hscan as (b & Hb & Hrep & _).
  unfold report_pressed in Hrep.
  destruct (nk_gamepad_is_button_pressed (Some g) s b) eqn:Hp; [|discriminate].
  injection Hrep as <-. exists b. split; [|split; [exact Hp | reflexivity]].
  unfold valid_button, NK_GAMEPAD_BUTTON_FIRST, NK_GAMEPAD_BUTTON_LAST in *. lia.
Qed.

Lemma scan_slots_found (s b : Z) :
  0 <= s < NK_GAMEPAD_MAX -> valid_button b ->
  nk_gamepad_is_button_pressed (Some g) s b = true ->
  (forall s' b', 0 <= s' < NK_GAMEPAD_MAX -> valid_button b' ->
     scanned_before s' b' s b ->
     nk_gamepad_is_button_pressed (Some g) s' b' = false) ->
  for_return (Z.to_nat NK_GAMEPAD_MAX) 0 (scan_buttons g out_num out_button)
  = Some (nk_true, store_if_not_null out_num s, store_if_not_null out_button b).
Proof.
  intros Hs Hb Hp Hmin. apply for_return_Some. exists s.
  split; [unfold NK_GAMEPAD_MAX in *; lia|]. split.
  - apply scan_buttons_found; try assumption.
    intros b' Hb' Hlt. apply Hmin; try assumption. right. split; [reflexivity | lia].
  - intros k Hk. apply scan_buttons_none. intros b' Hb'.
    apply Hmin; try assumption; [lia|]. left. lia.
Qed.

Lemma scan_slots_none :
  (forall s b, 0 <= s < NK_GAMEPAD_MAX -> valid_button b ->
     nk_gamepad_is_button_pressed (Some g) s b = false) ->
  for_return (Z.to_nat NK_GAMEPAD_MAX) 0 (scan_buttons g out_num out_button) = None.
Proof.
  intros Hnone. apply for_return_None. intros k Hk. apply scan_buttons_none.
  intros b Hb. apply Hnone; [unfold NK_GAMEPAD_MAX in *; lia | assumption].
Qed.

(** As soon as slot 0 has a pressed button, the scan stops in slot 0. *)
Lemma scan_slots_first (b : Z) :
  valid_button b ->
  nk_gamepad_is_button_pressed (Some g) 0 b = true ->
  exists b', valid_button b'
    /\ nk_gamepad_is_button_pressed (Some g) 0 b' = true
    /\ for_return (Z.to_nat NK_GAMEPAD_MAX) 0 (scan_buttons g out_num out_button)
       = Some (nk_true, store_if_not_null out_num 0, store_if_not_null out_button b').
Proof.
  intros Hb Hp. destruct (scan_buttons g out_num out_button 0) as [r|] eqn:Hscan.
  - destruct (scan_buttons_result 0 r Hscan) as (b' & Hb' & Hp' & ->).
    exists b'. split; [assumption|]. split; [assumption|].
    apply for_return_Some. exists 0. split; [unfold NK_GAMEPAD_MAX; lia|].
    split; [assumption|]. intros k Hk. lia.
  - unfold scan_buttons in Hscan. rewrite for_return_None in Hscan.
    specialize (Hscan b). unfold report_pressed in Hscan. rewrite Hp in Hscan.
    unfold valid_button, NK_GAMEPAD_BUTTON_FIRST, NK_GAMEPAD_BUTTON_LAST in *.
    discriminate Hscan. lia.
Qed.

End Scan.

(** C6. nk_gamepad_any_button_pressed reports nothing on a NULL tracker
    and for a slot index of NK_GAMEPAD_MAX or more.  With a negative index
    it reports the first pressed (slot, button) pair in slot-major,
    button-minor ascending order, and nothing when there is none; so when
    slots 0 and 1 both press a button, slot 0 is reported.  With an index
    in range it reports nothing for an unavailable slot and otherwise the
    pressed button of that slot with the lowest ordinal, or nothing when
    the slot has none. *)
Theorem nk_gamepad_any_button_pressed_first_match (g : nk_gamepads)
    (num s b : Z) (out_num out_button : option Z) :
  valid_button b ->
  nk_gamepad_any_button_pressed None num out_num out_button
  = (nk_false, out_num, out_button)
  /\ (NK_GAMEPAD_MAX <= num ->
      nk_gamepad_any_button_pressed (Some g) num out_num out_button
      = (nk_false, out_num, out_button))
  /\ (num < 0 ->
      (0 <= s < NK_GAMEPAD_MAX ->
       nk_gamepad_is_button_pressed (Some g) s b = true ->
       (forall s' b', 0 <= s' < NK_GAMEPAD_MAX -> valid_button b' ->
          scanned_before s' b' s b ->
          nk_gamepad_is_button_pressed (Some g) s' b' = false) ->
       nk_gamepad_any_button_pressed (Some g) num out_num out_button
       = (nk_true, store_if_not_null out_num s, store_if_not_null out_button b))
      /\ ((forall s' b', 0 <= s' < NK_GAMEPAD_MAX -> valid_button b' ->
             nk_gamepad_is_button_pressed (Some g) s' b' = false) ->
          nk_gamepad_any_button_pressed (Some g) num out_num out_button
          = (nk_false, out_num, out_button))
      /\ (nk_gamepad_is_button_pressed (Some g) 0 b = true ->
          nk_gamepad_is_button_pressed (Some g) 1 b = true ->
          exists b', valid_button b'
            /\ nk_gamepad_is_button_pressed (Some g) 0 b' = true
            /\ nk_gamepad_any_button_pressed (Some g) num out_num out_button
               = (nk_true, store_if_not_null out_num 0,
                  store_if_not_null out_button b')))
  /\ (0 <= num < NK_GAMEPAD_MAX ->
      (available (gamepad_at g num) = false ->
       nk_gamepad_any_button_pressed (Some g) num out_num out_button
       = (nk_false, out_num, out_button))
      /\ (available (gamepad_at g num) = true ->
          nk_gamepad_is_button_pressed (Some g) num b = true ->
          (forall b', valid_button b' -> b' < b ->
             nk_gamepad_is_button_pressed (Some g) num b' = false) ->
          nk_gamepad_any_button_pressed (Some g) num out_num out_button
          = (nk_true, store_if_not_null out_num num,
             store_if_not_null out_button b))
      /\ (available (gamepad_at g num) = true ->
          (forall b', valid_button b' ->
             nk_gamepad_is_button_pressed (Some g) num b' = false) ->
          nk_gamepad_any_button_pressed (Some g) num out_num out_button
          = (nk_false, out_num, out_button))).
Proof.
  intros Hb. split; [reflexivity|]. rewrite nk_gamepad_any_button_pressed_loops.
  split; [|split].
  - intros Hge. destruct (Z.geb_spec num NK_GAMEPAD_MAX); [reflexivity | lia].
  - intros Hneg.
    destruct (Z.geb_spec num NK_GAMEPAD_MAX) as [Hge|_];
      [unfold NK_GAMEPAD_MAX in Hge; lia|].
    destruct (Z.ltb_spec num 0) as [_|Hpos]; [|lia].
    split; [|split].
    + intros Hs Hp Hmin.
      rewrite (scan_slots_found g out_num out_button s b Hs Hb Hp Hmin).
      reflexivity.
    + intros Hnone.
      rewrite (scan_slots_none g out_num out_button Hnone). reflexivity.
    + intros Hp0 _.
      destruct (scan_slots_first g out_num out_button b Hb Hp0)
        as (b' & Hb' & Hp' & Hscan).
      exists b'. split; [assumption|]. split; [assumption|].
      rewrite Hscan. reflexivity.
  - intros Hin.
    destruct (Z.geb_spec num NK_GAMEPAD_MAX) as [Hge|_]; [lia|].
    destruct (Z.ltb_spec num 0) as [Hneg|_]; [lia|].
    split; [|split].
    + intros ->. reflexivity.
    + intros -> Hp Hmin. cbn [negb].
      rewrite (scan_buttons_found g out_num out_button num b Hb Hp Hmin).
      reflexivity.
    + intros -> Hnone. cbn [negb].
      rewrite (scan_buttons_none g out_num out_button num Hnone). reflexivity.
Qed.

(** The scenario of slots 0 and 1 both newly pressing X. *)
Lemma nk_gamepad_any_button_pressed_first_match_witness :
  nk_gamepad_any_button_pressed (Some both_press_x) (-1) (Some 7) (Some 7)
  = (nk_true, Some 0, Some NK_GAMEPAD_BUTTON_X).
Proof.
  assert (Hvalid : valid_button NK_GAMEPAD_BUTTON_X) by (vm_compute; split; congruence).
  destruct (nk_gamepad_any_button_pressed_first_match both_press_x (-1) 0
              NK_GAMEPAD_BUTTON_X (Some 7) (Some 7) Hvalid) as (_ & _ & Hany & _).
  destruct Hany as (Hfirst & _); [lia|].
  apply Hfirst.
  - unfold NK_GAMEPAD_MAX. lia.
  - reflexivity.
  - intros s' b' Hs' [Hlo Hhi] [Hlt|[-> Hlt]]; [lia|].
    unfold NK_GAMEPAD_BUTTON_FIRST, NK_GAMEPAD_BUTTON_X in *.
    assert (Hcases : b' = 0 \/ b' = 1 \/ b' = 2 \/ b' = 3 \/ b' = 4 \/ b' = 5)
      by lia.
    destruct Hcases as [-> | [-> | [-> | [-> | [-> | ->]]]]]; reflexivity.
Defined.

(** Two loops whose bodies agree on where they return also agree on
    where the loops return. *)
Lemma for_return_related {R1 R2 : Type} (rel : R1 -> R2 -> Prop) (n : nat)
    (lo : Z) (body1 : Z -> option R1) (body2 : Z -> option R2) :
  (forall i, option_Forall2 rel (body1 i) (body2 i)) ->
  option_Forall2 rel (for_return n lo body1) (for_return n lo body2).
Proof.
  intros Hbody. revert lo. induction n as [|n IH]; intros lo; simpl.
  - constructor.
  - destruct (Hbody lo) as [r1 r2 Hr|]; [constructor; exact Hr | apply IH].
Qed.

(** Destructs how the two loops of the goal, which differ in their
    bodies only, return. *)
Ltac relate_loops rel r r' Hr :=
  match goal with
  | |- context [for_return ?n ?lo ?f] =>
      match goal with
      | |- context [for_return n lo ?f'] =>
          lazymatch f' with
          | f => fail
          | _ => destruct (for_return_related rel n lo f f') as [r r' Hr|]
          end
      end
  end.

(** C10. nk_gamepad_any_button_pressed accepts NULL output pointers:
    whether a pressed button is found does not depend on them, a found
    slot index and button are stored exactly through the pointers that
    are not NULL, and nothing is stored when nothing is found. *)
Theorem nk_gamepad_any_button_pressed_null_outputs (gp : option nk_gamepads)
    (num : Z) (out_num out_button out_num' out_button' : option Z) :
  fst (fst (nk_gamepad_any_button_pressed gp num out_num out_button))
  = fst (fst (nk_gamepad_any_button_pressed gp num out_num' out_button'))
  /\ ((nk_gamepad_any_button_pressed gp num out_num out_button
       = (nk_false, out_num, out_button)
       /\ nk_gamepad_any_button_pressed gp num out_num' out_button'
          = (nk_false, out_num', out_button'))
      \/ exists s b,
           nk_gamepad_any_button_pressed gp num out_num out_button
           = (nk_true, store_if_not_null out_num s, store_if_not_null out_button b)
           /\ nk_gamepad_any_button_pressed gp num out_num' out_button'
              = (nk_true, store_if_not_null out_num' s,
                 store_if_not_null out_button' b))
  /\ snd (fst (nk_gamepad_any_button_pressed gp num None out_button)) = None
  /\ snd (nk_gamepad_any_button_pressed gp num out_num None) = None.
Proof.
  assert (Hcases : forall on ob on' ob',
    (nk_gamepad_any_button_pressed gp num on ob = (nk_false, on, ob)
     /\ nk_gamepad_any_button_pressed gp num on' ob' = (nk_false, on', ob'))
    \/ exists s b,
         nk_gamepad_any_button_pressed gp num on ob
         = (nk_true, store_if_not_null on s, store_if_not_null ob b)
         /\ nk_gamepad_any_button_pressed gp num on' ob'
            = (nk_true, store_if_not_null on' s, store_if_not_null ob' b)).
  { intros on ob on' ob'.
    set (rel := fun r r' : nk_bool * option Z * option Z =>
      exists s b, r = (nk_true, store_if_not_null on s, store_if_not_null ob b)
               /\ r' = (nk_true, store_if_not_null on' s, store_if_not_null ob' b)).
    assert (Hreport : forall g s b,
      option_Forall2 rel
        (if nk_gamepad_is_button_pressed (Some g) s b
         then Some (nk_true, store_if_not_null on s, store_if_not_null ob b)
         else None)
        (if nk_gamepad_is_button_pressed (Some g) s b
         then Some (nk_true, store_if_not_null on' s, store_if_not_null ob' b)
         else None)).
    { intros g s b. destruct (nk_gamepad_is_button_pressed (Some g) s b);
        constructor. exists s, b. split; reflexivity. }
    unfold nk_gamepad_any_button_pressed.
    destruct gp as [g|]; [|left; split; reflexivity].
    destruct (num >=? NK_GAMEPAD_MAX); [left; split; reflexivity|].
    destruct (num <? 0).
    - relate_loops rel r r' Hr.
      + intros s. apply for_return_related. intros b. apply Hreport.
      + right. exact Hr.
      + left. split; reflexivity.
    - destruct (negb (available (gamepad_at g num))); [left; split; reflexivity|].
      relate_loops rel r r' Hr.
      + intros b. apply Hreport.
      + right. exact Hr.
      + left. split; reflexivity. }
  split; [|split; [apply Hcases|split]].
  - destruct (Hcases out_num out_button out_num' out_button')
      as [[-> ->]|(s & b & -> & ->)]; reflexivity.
  - destruct (Hcases None out_button None out_button)
      as [[-> _]|(s & b & -> & _)]; reflexivity.
  - destruct (Hcases out_num None out_num None)
      as [[-> _]|(s & b & -> & _)]; reflexivity.
Qed.

(** ** nk_gamepad_name *)

Lemma name_guard (g : nk_gamepads) (num : Z) :
  (num <? 0) || (num >=? NK_GAMEPAD_MAX) || negb (available (gamepad_at g num))
  = true
  <-> num < 0 \/ NK_GAMEPAD_MAX <= num \/ available (gamepad_at g num) = false.
Proof.
  rewrite !orb_true_iff, negb_true_iff, Z.ltb_lt, Z.geb_le. tauto.
Qed.

(** C8 (amended). nk_gamepad_name returns NULL when the tracker is NULL,
    the slot index is outside [0, NK_GAMEPAD_MAX) or the slot is
    unavailable.  Otherwise it returns what the backend name hook
    returns when one is configured, and the stored name of the slot when
    none is; without a hook it therefore returns NULL in exactly those
    cases.  Marking a slot unavailable leaves its stored name as it was,
    and without a hook that name is returned again once the slot is
    marked available. *)
Theorem nk_gamepad_name_spec (B : backend) (g : nk_gamepads) (num : Z) :
  well_formed g ->
  nk_gamepad_name B None num = None
  /\ (num < 0 \/ NK_GAMEPAD_MAX <= num \/ available (gamepad_at g num) = false ->
      nk_gamepad_name B (Some g) num = None)
  /\ (forall hook, NK_GAMEPAD_NAME B = Some hook ->
      0 <= num < NK_GAMEPAD_MAX -> available (gamepad_at g num) = true ->
      nk_gamepad_name B (Some g) num = hook g num)
  /\ (NK_GAMEPAD_NAME B = None ->
      (nk_gamepad_name B (Some g) num = None
       <-> num < 0 \/ NK_GAMEPAD_MAX <= num
           \/ available (gamepad_at g num) = false)
      /\ (0 <= num < NK_GAMEPAD_MAX -> available (gamepad_at g num) = true ->
          nk_gamepad_name B (Some g) num = Some (name (gamepad_at g num))))
  /\ (0 <= num < NK_GAMEPAD_MAX ->
      let g1 := update_gamepad num (set_available nk_false) g in
      let g2 := update_gamepad num (set_available nk_true) g1 in
      nk_gamepad_name B (Some g1) num = None
      /\ name (gamepad_at g1 num) = name (gamepad_at g num)
      /\ (NK_GAMEPAD_NAME B = None ->
          nk_gamepad_name B (Some g2) num = Some (name (gamepad_at g num)))).
Proof.
  intros Hwf. unfold well_formed in Hwf.
  assert (Hout : forall g0, num < 0 \/ NK_GAMEPAD_MAX <= num
                   \/ available (gamepad_at g0 num) = false ->
                 nk_gamepad_name B (Some g0) num = None).
  { intros g0 H. apply name_guard in H. unfold nk_gamepad_name.
    rewrite H. reflexivity. }
  assert (Hin : forall g0, 0 <= num < NK_GAMEPAD_MAX ->
                  available (gamepad_at g0 num) = true ->
                  nk_gamepad_name B (Some g0) num
                  = match NK_GAMEPAD_NAME B with
                    | Some hook => hook g0 num
                    | None => Some (name (gamepad_at g0 num))
                    end).
  { intros g0 Hnum Hav. unfold nk_gamepad_name.
    destruct ((num <? 0) || (num >=? NK_GAMEPAD_MAX)
              || negb (available (gamepad_at g0 num))) eqn:Hguard;
      [|reflexivity].
    apply name_guard in Hguard. destruct Hguard as [?|[?|?]]; [lia | lia | congruence]. }
  split; [reflexivity|]. split; [apply Hout|]. split; [|split].
  - intros hook Hhook Hnum Hav. rewrite Hin, Hhook by assumption. reflexivity.
  - intros Hnone. split.
    + split; [|apply Hout]. intros Hname.
      destruct (Z.lt_ge_cases num 0) as [?|Hlo]; [left; assumption|].
      destruct (Z.le_gt_cases NK_GAMEPAD_MAX num) as [?|Hhi];
        [right; left; assumption|].
      destruct (available (gamepad_at g num)) eqn:Hav; [|right; right; reflexivity].
      rewrite Hin, Hnone in Hname by (lia || assumption). discriminate.
    + intros Hnum Hav. rewrite Hin, Hnone by assumption. reflexivity.
  - intros Hnum g1 g2.
    assert (Hlt : (Z.to_nat num < length (gamepads g))%nat)
      by (rewrite Hwf; unfold NK_GAMEPAD_MAX in *; lia).
    assert (Hg1 : gamepad_at g1 num = set_available nk_false (gamepad_at g num)).
    { unfold g1. rewrite gamepad_at_update by lia.
      rewrite decide_True by auto. reflexivity. }
    assert (Hg2 : gamepad_at g2 num = set_available nk_true (gamepad_at g1 num)).
    { unfold g2. rewrite gamepad_at_update by lia.
      rewrite decide_True; [reflexivity|]. split; [reflexivity|].
      unfold g1. rewrite update_gamepad_length. assumption. }
    split; [|split].
    + apply Hout. right. right. rewrite Hg1. reflexivity.
    + rewrite Hg1. reflexivity.
    + intros Hnone. rewrite Hin, Hnone; [|assumption|].
      * rewrite Hg2, Hg1. reflexivity.
      * rewrite Hg2. reflexivity.
Qed.

Lemma nk_gamepad_name_spec_witness :
  nk_gamepad_name no_backend (Some fresh) 1
  = Some (list_ascii_of_string "Controller 2" ++ replicate 4 zero)
  /\ nk_gamepad_name no_backend
       (Some (update_gamepad 1 (set_available nk_false) fresh)) 1 = None.
Proof.
  destruct (nk_gamepad_name_spec no_backend fresh 1) as (_ & _ & _ & Hstored & Hmark);
    [reflexivity|].
  destruct (Hstored eq_refl) as [_ Hname].
  destruct Hmark as (Hgone & _); [unfold NK_GAMEPAD_MAX; lia|].
  split; [|exact Hgone].
  rewrite Hname; [reflexivity | unfold NK_GAMEPAD_MAX; lia | reflexivity].
Defined.

(** C8, as stated, fails with a backend that defines NK_GAMEPAD_NAME: for
    an available slot in range the result is the name the hook gives, not
    the stored one. *)
Lemma nk_gamepad_name_hook_counterexample :
  0 <= 0 < NK_GAMEPAD_MAX
  /\ available (gamepad_at fresh 0) = true
  /\ nk_gamepad_name naming_backend (Some fresh) 0
     = Some (list_ascii_of_string "Xbox")
  /\ nk_gamepad_name naming_backend (Some fresh) 0
     <> Some (name (gamepad_at fresh 0)).
Proof.
  split; [unfold NK_GAMEPAD_MAX; lia|].
  split; [reflexivity|]. split; [reflexivity|]. discriminate.
Qed.

(** ** nk_gamepad_button *)

(** C9. For a slot index in [0, NK_GAMEPAD_MAX), nk_gamepad_button
    changes at most the current mask of that slot: the context, the user
    data and the number of slots of the tracker, every other slot, and
    the previous mask, availability, name and backend data of the slot
    itself are as before. *)
Theorem nk_gamepad_button_frame (g : nk_gamepads) (num button k : Z)
    (down : nk_bool) :
  0 <= num < NK_GAMEPAD_MAX ->
  exists g',
    nk_gamepad_button (Some g) num button down = Some g'
    /\ ctx g' = ctx g /\ user_data g' = user_data g
    /\ length (gamepads g') = length (gamepads g)
    /\ (0 <= k -> k <> num -> gamepad_at g' k = gamepad_at g k)
    /\ buttons_prev (gamepad_at g' num) = buttons_prev (gamepad_at g num)
    /\ available (gamepad_at g' num) = available (gamepad_at g num)
    /\ name (gamepad_at g' num) = name (gamepad_at g num)
    /\ data (gamepad_at g' num) = data (gamepad_at g num).
Proof.
  intros Hnum.
  assert (Hupd : forall v : nk_gamepad -> Z,
    let g' := update_gamepad num (fun p => set_buttons (v p) p) g in
    ctx g' = ctx g /\ user_data g' = user_data g
    /\ length (gamepads g') = length (gamepads g)
    /\ (0 <= k -> k <> num -> gamepad_at g' k = gamepad_at g k)
    /\ buttons_prev (gamepad_at g' num) = buttons_prev (gamepad_at g num)
    /\ available (gamepad_at g' num) = available (gamepad_at g num)
    /\ name (gamepad_at g' num) = name (gamepad_at g num)
    /\ data (gamepad_at g' num) = data (gamepad_at g num)).
  { intros v g'. split; [reflexivity|]. split; [reflexivity|].
    split; [apply update_gamepad_length|]. split.
    - intros Hk Hne. unfold g'. rewrite gamepad_at_update by lia.
      rewrite decide_False by (intros [? _]; contradiction). reflexivity.
    - unfold g'. rewrite gamepad_at_update by lia.
      destruct (decide (num = num /\ (Z.to_nat num < length (gamepads g))%nat));
        repeat split; reflexivity. }
  unfold nk_gamepad_button.
  destruct ((num <? 0) || (num >=? NK_GAMEPAD_MAX)
            || negb (available (gamepad_at g num))).
  - exists g. repeat split; reflexivity.
  - destruct down; eexists; (split; [reflexivity | apply Hupd]).
Qed.

Lemma nk_gamepad_button_frame_witness :
  exists g',
    nk_gamepad_button (Some fresh) 2 NK_GAMEPAD_BUTTON_Y nk_true = Some g'
    /\ buttons (gamepad_at g' 2) = 128
    /\ gamepad_at g' 0 = gamepad_at fresh 0
    /\ name (gamepad_at g' 2) = name (gamepad_at fresh 2).
Proof.
  destruct (nk_gamepad_button_frame fresh 2 NK_GAMEPAD_BUTTON_Y 0 nk_true)
    as (g' & Hrun & _ & _ & _ & Hother & _ & _ & Hname & _);
    [unfold NK_GAMEPAD_MAX; lia|].
  exists g'. split; [exact Hrun|]. split.
  - vm_compute in Hrun. injection Hrun as <-. reflexivity.
  - split; [apply Hother; lia | exact Hname].
Defined.

(** * Further properties of the tracker *)

(** ** Writing one button *)

Lemma testbit_press (m button n : Z) :
  0 <= button < 32 ->
  Z.testbit (Z.lor m (to_uint (NK_GAMEPAD_BUTTON_FLAG button))) n
  = Z.testbit m n || (button =? n).
Proof.
  intros Hb. rewrite to_uint_flag by assumption.
  rewrite Z.lor_spec, Z.pow2_bits_eqb by lia. reflexivity.
Qed.

Lemma testbit_release (m button n : Z) :
  0 <= button < 32 -> 0 <= n < 32 ->
  Z.testbit (Z.land m (to_uint (Z.lnot (NK_GAMEPAD_BUTTON_FLAG button)))) n
  = Z.testbit m n && negb (button =? n).
Proof.
  intros Hb Hn. unfold to_uint, NK_GAMEPAD_BUTTON_FLAG.
  rewrite Z.land_spec, Z.mod_pow2_bits_low by lia.
  rewrite Z.lnot_spec, Z.shiftl_1_l, Z.pow2_bits_eqb by lia. reflexivity.
Qed.

(** Only a slot inside the array can be available. *)
Lemma available_in_array (g : nk_gamepads) (i : Z) :
  available (gamepad_at g i) = true ->
  (Z.to_nat i < length (gamepads g))%nat.
Proof.
  intros Hav. destruct (decide (Z.to_nat i < length (gamepads g))%nat) as [Hlt|Hge];
    [assumption|].
  rewrite gamepad_at_out_of_range in Hav by lia. discriminate.
Qed.

Lemma update_gamepad_ext (i : Z) (f h : nk_gamepad -> nk_gamepad) (g : nk_gamepads) :
  f (gamepad_at g i) = h (gamepad_at g i) ->
  update_gamepad i f g = update_gamepad i h g.
Proof. intros Heq. unfold update_gamepad. rewrite Heq. reflexivity. Qed.

Lemma button_guard (g : nk_gamepads) (num : Z) :
  (num <? 0) || (num >=? NK_GAMEPAD_MAX) || negb (available (gamepad_at g num))
  = false
  <-> 0 <= num < NK_GAMEPAD_MAX /\ available (gamepad_at g num) = true.
Proof.
  rewrite !orb_false_iff, negb_false_iff, Z.ltb_ge, Z.geb_leb, Z.leb_gt. tauto.
Qed.

(** nk_gamepad_button on a slot it accepts. *)
Lemma button_accepted (g : nk_gamepads) (num button : Z) (down : nk_bool) :
  0 <= num < NK_GAMEPAD_MAX -> available (gamepad_at g num) = true ->
  let v := if down
           then Z.lor (buttons (gamepad_at g num))
                  (to_uint (NK_GAMEPAD_BUTTON_FLAG button))
           else Z.land (buttons (gamepad_at g num))
                  (to_uint (Z.lnot (NK_GAMEPAD_BUTTON_FLAG button))) in
  nk_gamepad_button (Some g) num button down
  = Some (update_gamepad num (set_buttons v) g)
  /\ gamepad_at (update_gamepad num (set_buttons v) g) num
     = set_buttons v (gamepad_at g num).
Proof.
  intros Hnum Hav v. split.
  - unfold nk_gamepad_button.
    rewrite (proj2 (button_guard g num)) by (split; assumption).
    unfold v. destruct down; reflexivity.
  - rewrite gamepad_at_update by lia.
    rewrite decide_True; [reflexivity|]. split; [reflexivity|].
    apply available_in_array. assumption.
Qed.

(** X1. On an available slot in range and for a button of the
    enumeration, nk_gamepad_button sets (down) or clears (not down) the
    bit of that button in buttons and leaves every other bit of the mask
    as it was. *)
Theorem nk_gamepad_button_writes_one_bit (g : nk_gamepads) (num button n : Z)
    (down : nk_bool) :
  0 <= num < NK_GAMEPAD_MAX ->
  available (gamepad_at g num) = true ->
  valid_button button ->
  0 <= n < 32 ->
  exists g',
    nk_gamepad_button (Some g) num button down = Some g'
    /\ Z.testbit (buttons (gamepad_at g' num)) n
       = if n =? button then down
         else Z.testbit (buttons (gamepad_at g num)) n.
Proof.
  intros Hnum Hav Hb Hn.
  destruct (button_accepted g num button down Hnum Hav) as [Hrun Hat].
  eexists. split; [exact Hrun|]. rewrite Hat. cbn [buttons set_buttons].
  unfold valid_button, NK_GAMEPAD_BUTTON_FIRST, NK_GAMEPAD_BUTTON_LAST in Hb.
  rewrite (Z.eqb_sym n button).
  destruct down.
  - rewrite testbit_press by lia.
    destruct (button =? n); [apply orb_true_r | apply orb_false_r].
  - rewrite testbit_release by lia.
    destruct (button =? n); [apply andb_false_r | apply andb_true_r].
Qed.

Lemma nk_gamepad_button_writes_one_bit_witness :
  exists g',
    nk_gamepad_button (Some mixed_tracker) 0 NK_GAMEPAD_BUTTON_X nk_true = Some g'
    /\ Z.testbit (buttons (gamepad_at g' 0)) 4
       = Z.testbit (buttons (gamepad_at mixed_tracker 0)) 4.
Proof.
  apply (nk_gamepad_button_writes_one_bit mixed_tracker 0 NK_GAMEPAD_BUTTON_X 4
           nk_true).
  - unfold NK_GAMEPAD_MAX. lia.
  - reflexivity.
  - vm_compute. split; congruence.
  - lia.
Defined.

(** X2. nk_gamepad_button is idempotent: a second call with the same
    arguments leaves the tracker as the first call left it, for any
    tracker pointer, slot index, button ordinal and direction. *)
Theorem nk_gamepad_button_idempotent (gp : option nk_gamepads) (num button : Z)
    (down : nk_bool) :
  nk_gamepad_button (nk_gamepad_button gp num button down) num button down
  = nk_gamepad_button gp num button down.
Proof.
  destruct gp as [g|]; [|reflexivity].
  destruct ((num <? 0) || (num >=? NK_GAMEPAD_MAX)
            || negb (available (gamepad_at g num))) eqn:Hguard.
  - unfold nk_gamepad_button at 2. rewrite Hguard.
    unfold nk_gamepad_button. rewrite Hguard. reflexivity.
  - apply button_guard in Hguard as [Hnum Hav].
    destruct (button_accepted g num button down Hnum Hav) as [-> Hat].
    match goal with
    | |- nk_gamepad_button (Some ?g1) _ _ _ = _ =>
        assert (Hav1 : available (gamepad_at g1 num) = true)
          by (rewrite Hat; exact Hav);
        destruct (button_accepted g1 num button down Hnum Hav1) as [-> _]
    end.
    f_equal. rewrite Hat. cbn [buttons set_buttons].
    rewrite update_gamepad_compose by lia.
    apply update_gamepad_ext. unfold set_buttons. cbn. f_equal.
    destruct down.
    + rewrite <- Z.lor_assoc, Z.lor_diag. reflexivity.
    + rewrite <- Z.land_assoc, Z.land_diag. reflexivity.
Qed.

(** ** The queries, slot by slot *)

Lemma flag_set_testbit (m button : Z) :
  valid_button button -> flag_set m button = Z.testbit m button.
Proof.
  intros Hb. unfold flag_set, valid_button, NK_GAMEPAD_BUTTON_FIRST,
    NK_GAMEPAD_BUTTON_LAST in *.
  rewrite flag_test by lia. apply negb_involutive.
Qed.

Lemma is_button_down_slot (g : nk_gamepads) (num button : Z) :
  0 <= num ->
  nk_gamepad_is_button_down (Some g) num button
  = (num <? NK_GAMEPAD_MAX) && available (gamepad_at g num)
    && flag_set (buttons (gamepad_at g num)) button.
Proof.
  intros Hnum. unfold nk_gamepad_is_button_down, flag_set.
  destruct (Z.ltb_spec num 0) as [?|_]; [lia|].
  rewrite Z.geb_leb, Z.leb_antisym.
  destruct (num <? NK_GAMEPAD_MAX), (available (gamepad_at g num)); reflexivity.
Qed.

Lemma is_button_pressed_slot (g : nk_gamepads) (num button : Z) :
  0 <= num ->
  nk_gamepad_is_button_pressed (Some g) num button
  = (num <? NK_GAMEPAD_MAX) && available (gamepad_at g num)
    && (negb (flag_set (buttons_prev (gamepad_at g num)) button)
        && flag_set (buttons (gamepad_at g num)) button).
Proof.
  intros Hnum. unfold nk_gamepad_is_button_pressed, flag_set.
  destruct (Z.ltb_spec num 0) as [?|_]; [lia|].
  rewrite Z.geb_leb, Z.leb_antisym, negb_involutive.
  destruct (num <? NK_GAMEPAD_MAX), (available (gamepad_at g num)); reflexivity.
Qed.

Lemma is_button_released_slot (g : nk_gamepads) (num button : Z) :
  0 <= num ->
  nk_gamepad_is_button_released (Some g) num button
  = (num <? NK_GAMEPAD_MAX) && available (gamepad_at g num)
    && (negb (flag_set (buttons (gamepad_at g num)) button)
        && flag_set (buttons_prev (gamepad_at g num)) button).
Proof.
  intros Hnum. unfold nk_gamepad_is_button_released, flag_set.
  destruct (Z.ltb_spec num 0) as [?|_]; [lia|].
  rewrite Z.geb_leb, Z.leb_antisym, negb_involutive.
  destruct (num <? NK_GAMEPAD_MAX), (available (gamepad_at g num)); reflexivity.
Qed.

(** The loop of a query asked about any slot, against the same query
    asked slot by slot. *)
Lemma any_slot_query (g : nk_gamepads) (test : nk_gamepad -> bool)
    (query : Z -> bool) :
  (forall i, 0 <= i ->
     query i = (i <? NK_GAMEPAD_MAX) && available (gamepad_at g i)
               && test (gamepad_at g i)) ->
  match
    for_return (Z.to_nat NK_GAMEPAD_MAX) 0 (fun i =>
      if negb (available (gamepad_at g i)) then None
      else if test (gamepad_at g i) then Some nk_true else None)
  with
  | Some r => r
  | None => nk_false
  end = true
  <-> exists i, 0 <= i < NK_GAMEPAD_MAX /\ query i = true.
Proof.
  intros Hquery. rewrite any_slot_loop.
  split; intros (i & Hi & H); exists i; (split; [assumption|]).
  - destruct H as [Hav Ht]. rewrite Hquery, Hav, Ht by lia.
    destruct (Z.ltb_spec i NK_GAMEPAD_MAX); [reflexivity | lia].
  - rewrite Hquery in H by lia.
    apply andb_true_iff in H as [H Ht]. apply andb_true_iff in H as [_ Hav].
    split; assumption.
Qed.

Lemma any_slot_down (g : nk_gamepads) (num button : Z) :
  num < 0 ->
  nk_gamepad_is_button_down (Some g) num button = true
  <-> exists i, 0 <= i < NK_GAMEPAD_MAX
        /\ nk_gamepad_is_button_down (Some g) i button = true.
Proof.
  intros Hneg. unfold nk_gamepad_is_button_down at 1.
  destruct (Z.ltb_spec num 0) as [_|?]; [|lia].
  apply (any_slot_query g (fun p => flag_set (buttons p) button)).
  intros i Hi. apply is_button_down_slot. assumption.
Qed.

Lemma any_slot_pressed (g : nk_gamepads) (num button : Z) :
  num < 0 ->
  nk_gamepad_is_button_pressed (Some g) num button = true
  <-> exists i, 0 <= i < NK_GAMEPAD_MAX
        /\ nk_gamepad_is_button_pressed (Some g) i button = true.
Proof.
  intros Hneg. unfold nk_gamepad_is_button_pressed at 1.
  destruct (Z.ltb_spec num 0) as [_|?]; [|lia].
  apply (any_slot_query g (fun p =>
    (Z.land (buttons_prev p) (to_uint (NK_GAMEPAD_BUTTON_FLAG button)) =? 0)
    && flag_set (buttons p) button)).
  intros i Hi. rewrite is_button_pressed_slot by assumption.
  unfold flag_set. rewrite negb_involutive. reflexivity.
Qed.

Lemma any_slot_released (g : nk_gamepads) (num button : Z) :
  num < 0 ->
  nk_gamepad_is_button_released (Some g) num button = true
  <-> exists i, 0 <= i < NK_GAMEPAD_MAX
        /\ nk_gamepad_is_button_released (Some g) i button = true.
Proof.
  intros Hneg. unfold nk_gamepad_is_button_released at 1.
  destruct (Z.ltb_spec num 0) as [_|?]; [|lia].
  apply (any_slot_query g (fun p =>
    (Z.land (buttons p) (to_uint (NK_GAMEPAD_BUTTON_FLAG button)) =? 0)
    && flag_set (buttons_prev p) button)).
  intros i Hi. rewrite is_button_released_slot by assumption.
  unfold flag_set. rewrite negb_involutive. reflexivity.
Qed.

(** X3. Asked about any slot (a negative index), each of the three
    button queries is true exactly when the same query is true for the
    same button on at least one slot index in [0, NK_GAMEPAD_MAX); this
    holds for every button ordinal. *)
Theorem any_slot_is_some_slot (g : nk_gamepads) (num button : Z) :
  num < 0 ->
  (nk_gamepad_is_button_down (Some g) num button = true
   <-> exists i, 0 <= i < NK_GAMEPAD_MAX
         /\ nk_gamepad_is_button_down (Some g) i button = true)
  /\ (nk_gamepad_is_button_pressed (Some g) num button = true
      <-> exists i, 0 <= i < NK_GAMEPAD_MAX
            /\ nk_gamepad_is_button_pressed (Some g) i button = true)
  /\ (nk_gamepad_is_button_released (Some g) num button = true
      <-> exists i, 0 <= i < NK_GAMEPAD_MAX
            /\ nk_gamepad_is_button_released (Some g) i button = true).
Proof.
  intros Hneg. split; [|split].
  - apply any_slot_down. assumption.
  - apply any_slot_pressed. assumption.
  - apply any_slot_released. assumption.
Qed.

Lemma any_slot_is_some_slot_witness :
  nk_gamepad_is_button_released (Some edges_tracker) (-1) NK_GAMEPAD_BUTTON_A = true.
Proof.
  destruct (any_slot_is_some_slot edges_tracker (-1) NK_GAMEPAD_BUTTON_A)
    as (_ & _ & Hrel); [lia|].
  apply Hrel. exists 0. split; [unfold NK_GAMEPAD_MAX; lia | reflexivity].
Defined.

(** X4. A button that was just pressed is down, for a slot index and
    for any slot alike; on one slot, a button that was just released is
    not down.  This holds for every tracker pointer and button ordinal. *)
Theorem pressed_is_down_released_is_up (gp : option nk_gamepads) (num button : Z) :
  (nk_gamepad_is_button_pressed gp num button = true ->
   nk_gamepad_is_button_down gp num button = true)
  /\ (0 <= num ->
      nk_gamepad_is_button_released gp num button = true ->
      nk_gamepad_is_button_down gp num button = false).
Proof.
  destruct gp as [g|]; [|split; [discriminate | reflexivity]].
  assert (Hslot : forall i, 0 <= i ->
            nk_gamepad_is_button_pressed (Some g) i button = true ->
            nk_gamepad_is_button_down (Some g) i button = true).
  { intros i Hi. rewrite is_button_pressed_slot, is_button_down_slot by assumption.
    destruct ((i <? NK_GAMEPAD_MAX) && available (gamepad_at g i)); simpl;
      [|discriminate].
    intros H. apply andb_true_iff in H as [_ H]. exact H. }
  split.
  - destruct (Z.lt_ge_cases num 0) as [Hneg|Hpos]; [|apply Hslot; assumption].
    rewrite any_slot_pressed, any_slot_down by assumption.
    intros (i & Hi & Hp). exists i. split; [assumption|].
    apply Hslot; [lia | assumption].
  - intros Hnum.
    rewrite is_button_released_slot, is_button_down_slot by assumption.
    destruct ((num <? NK_GAMEPAD_MAX) && available (gamepad_at g num)); simpl;
      [|reflexivity].
    intros H. apply andb_true_iff in H as [H _].
    apply negb_true_iff in H. exact H.
Qed.

Lemma pressed_is_down_released_is_up_witness :
  nk_gamepad_is_button_down (Some edges_tracker) (-1) NK_GAMEPAD_BUTTON_A = true
  /\ nk_gamepad_is_button_down (Some edges_tracker) 0 NK_GAMEPAD_BUTTON_A = false.
Proof.
  split.
  - apply (pressed_is_down_released_is_up (Some edges_tracker) (-1)
             NK_GAMEPAD_BUTTON_A). reflexivity.
  - apply (pressed_is_down_released_is_up (Some edges_tracker) 0
             NK_GAMEPAD_BUTTON_A); [lia | reflexivity].
Defined.

(** ** nk_gamepad_is_available *)

(** X5. nk_gamepad_is_available is false on a NULL tracker; with a
    negative index it is true exactly when some slot in
    [0, NK_GAMEPAD_MAX) is available; with a non-negative index it is the
    availability flag of that slot when the index is below
    NK_GAMEPAD_MAX, and false otherwise. *)
Theorem nk_gamepad_is_available_spec (g : nk_gamepads) (num : Z) :
  nk_gamepad_is_available None num = false
  /\ (num < 0 ->
      (nk_gamepad_is_available (Some g) num = true
       <-> exists i, 0 <= i < NK_GAMEPAD_MAX
             /\ available (gamepad_at g i) = true))
  /\ (0 <= num ->
      nk_gamepad_is_available (Some g) num
      = (num <? NK_GAMEPAD_MAX) && available (gamepad_at g num)).
Proof.
  split; [reflexivity|]. unfold nk_gamepad_is_available. split.
  - intros Hneg. destruct (Z.ltb_spec num 0) as [_|?]; [|lia].
    match goal with
    | |- match ?l with _ => _ end = true <-> _ => destruct l as [r|] eqn:Hloop
    end.
    + apply for_return_Some in Hloop as (j & Hj & Hbody & _).
      destruct (available (gamepad_at g j)) eqn:Hav; [|discriminate].
      injection Hbody as <-. split; [|reflexivity]. intros _. exists j.
      split; [unfold NK_GAMEPAD_MAX in *; lia | assumption].
    + split; [discriminate|]. intros (i & Hi & Hav).
      rewrite for_return_None in Hloop.
      specialize (Hloop i ltac:(unfold NK_GAMEPAD_MAX in *; lia)).
      rewrite Hav in Hloop. discriminate.
  - intros Hnum. destruct (Z.ltb_spec num 0) as [?|_]; [lia|].
    rewrite Z.geb_leb, Z.leb_antisym.
    destruct (num <? NK_GAMEPAD_MAX); reflexivity.
Qed.

Lemma nk_gamepad_is_available_spec_witness :
  nk_gamepad_is_available (Some start_tracker) (-1) = true
  /\ nk_gamepad_is_available (Some start_tracker) 4 = false.
Proof.
  destruct (nk_gamepad_is_available_spec start_tracker (-1)) as (_ & Hany & _).
  destruct (nk_gamepad_is_available_spec start_tracker 4) as (_ & _ & Hone).
  split.
  - apply Hany; [lia|]. exists 2. split; [unfold NK_GAMEPAD_MAX; lia | reflexivity].
  - rewrite Hone by lia. reflexivity.
Defined.

(** ** Slots that do not answer *)

(** X6. A slot index of NK_GAMEPAD_MAX or more, and the index of an
    unavailable slot, get the neutral answer from every query (false,
    NULL, nothing found), for every backend, and nk_gamepad_button on it
    leaves the tracker as it is. *)
Theorem silent_slot (B : backend) (g : nk_gamepads) (num button : Z)
    (down : nk_bool) (out_num out_button : option Z) :
  0 <= num ->
  NK_GAMEPAD_MAX <= num \/ available (gamepad_at g num) = false ->
  nk_gamepad_is_available (Some g) num = false
  /\ nk_gamepad_is_button_down (Some g) num button = false
  /\ nk_gamepad_is_button_pressed (Some g) num button = false
  /\ nk_gamepad_is_button_released (Some g) num button = false
  /\ nk_gamepad_any_button_pressed (Some g) num out_num out_button
     = (nk_false, out_num, out_button)
  /\ nk_gamepad_name B (Some g) num = None
  /\ nk_gamepad_button (Some g) num button down = Some g.
Proof.
  intros Hnum Hsilent.
  assert (Hoff : (num <? NK_GAMEPAD_MAX) && available (gamepad_at g num) = false).
  { destruct Hsilent as [Hge|Hav].
    - destruct (Z.ltb_spec num NK_GAMEPAD_MAX); [lia | reflexivity].
    - rewrite Hav. apply andb_false_r. }
  assert (Hguard : (num >=? NK_GAMEPAD_MAX) || negb (available (gamepad_at g num))
                   = true).
  { rewrite Z.geb_leb, Z.leb_antisym, <- negb_andb, Hoff. reflexivity. }
  rewrite is_button_down_slot, is_button_pressed_slot, is_button_released_slot
    by assumption.
  rewrite Hoff. repeat split.
  - unfold nk_gamepad_is_available.
    destruct (Z.ltb_spec num 0) as [?|_]; [lia|].
    rewrite Z.geb_leb, Z.leb_antisym.
    destruct (num <? NK_GAMEPAD_MAX); [exact Hoff | reflexivity].
  - unfold nk_gamepad_any_button_pressed.
    destruct (num >=? NK_GAMEPAD_MAX); [reflexivity|].
    destruct (Z.ltb_spec num 0) as [?|_]; [lia|].
    simpl in Hguard. rewrite Hguard. reflexivity.
  - unfold nk_gamepad_name. rewrite <- orb_assoc, Hguard, orb_true_r. reflexivity.
  - unfold nk_gamepad_button. rewrite <- orb_assoc, Hguard, orb_true_r. reflexivity.
Qed.

Lemma silent_slot_witness :
  nk_gamepad_is_button_down (Some mixed_tracker) 1 NK_GAMEPAD_BUTTON_X = false
  /\ nk_gamepad_button (Some mixed_tracker) 1 NK_GAMEPAD_BUTTON_A nk_true
     = Some mixed_tracker.
Proof.
  destruct (silent_slot no_backend mixed_tracker 1 NK_GAMEPAD_BUTTON_X nk_true
              None None) as (_ & Hdown & _); [lia | right; reflexivity |].
  destruct (silent_slot no_backend mixed_tracker 1 NK_GAMEPAD_BUTTON_A nk_true
              None None) as (_ & _ & _ & _ & _ & _ & Hbutton);
    [lia | right; reflexivity |].
  split; assumption.
Defined.

(** ** Writing a button, then asking *)

Lemma after_button_slot (g : nk_gamepads) (num button : Z) (down : nk_bool) :
  0 <= num < NK_GAMEPAD_MAX -> available (gamepad_at g num) = true ->
  gamepad_at (after_button g num button down) num
  = set_buttons
      (if down
       then Z.lor (buttons (gamepad_at g num))
              (to_uint (NK_GAMEPAD_BUTTON_FLAG button))
       else Z.land (buttons (gamepad_at g num))
              (to_uint (Z.lnot (NK_GAMEPAD_BUTTON_FLAG button))))
      (gamepad_at g num).
Proof.
  intros Hnum Hav. unfold after_button.
  destruct (button_accepted g num button down Hnum Hav) as [-> Hat]. exact Hat.
Qed.

Lemma flag_set_after_write (m button : Z) (down : nk_bool) :
  valid_button button ->
  flag_set (if down
            then Z.lor m (to_uint (NK_GAMEPAD_BUTTON_FLAG button))
            else Z.land m (to_uint (Z.lnot (NK_GAMEPAD_BUTTON_FLAG button))))
    button = down.
Proof.
  intros Hb. rewrite flag_set_testbit by assumption.
  unfold valid_button, NK_GAMEPAD_BUTTON_FIRST, NK_GAMEPAD_BUTTON_LAST in Hb.
  destruct down.
  - rewrite testbit_press, Z.eqb_refl by lia. apply orb_true_r.
  - rewrite testbit_release, Z.eqb_refl by lia. apply andb_false_r.
Qed.

(** X7. After nk_gamepad_button has pressed a button of the enumeration
    on an available slot in range, the button is down on that slot, it
    counts as just pressed exactly when its bit is clear in buttons_prev,
    and it does not count as just released.  After nk_gamepad_button
    has released it, the button is not down and not just pressed, and it
    counts as just released exactly when its bit is set in buttons_prev. *)
Theorem button_then_queries (g : nk_gamepads) (num button : Z) :
  0 <= num < NK_GAMEPAD_MAX ->
  available (gamepad_at g num) = true ->
  valid_button button ->
  nk_gamepad_is_button_down (Some (after_button g num button nk_true)) num button
  = true
  /\ nk_gamepad_is_button_pressed (Some (after_button g num button nk_true)) num button
     = negb (Z.testbit (buttons_prev (gamepad_at g num)) button)
  /\ nk_gamepad_is_button_released (Some (after_button g num button nk_true)) num button
     = false
  /\ nk_gamepad_is_button_down (Some (after_button g num button nk_false)) num button
     = false
  /\ nk_gamepad_is_button_pressed (Some (after_button g num button nk_false)) num button
     = false
  /\ nk_gamepad_is_button_released (Some (after_button g num button nk_false)) num button
     = Z.testbit (buttons_prev (gamepad_at g num)) button.
Proof.
  intros Hnum Hav Hb.
  rewrite !is_button_down_slot, !is_button_pressed_slot, !is_button_released_slot
    by lia.
  rewrite !after_button_slot by assumption.
  cbn [available buttons buttons_prev set_buttons].
  rewrite (flag_set_after_write _ button nk_true Hb).
  rewrite (flag_set_after_write _ button nk_false Hb).
  rewrite flag_set_testbit by assumption. rewrite Hav.
  destruct (Z.ltb_spec num NK_GAMEPAD_MAX) as [_|?]; [|lia].
  unfold nk_true, nk_false. cbn [negb andb].
  repeat split; try reflexivity; [apply andb_true_r | apply andb_false_r].
Qed.

Lemma button_then_queries_witness :
  nk_gamepad_is_button_pressed
    (Some (after_button fresh 2 NK_GAMEPAD_BUTTON_Y nk_true)) 2 NK_GAMEPAD_BUTTON_Y
  = negb (Z.testbit (buttons_prev (gamepad_at fresh 2)) NK_GAMEPAD_BUTTON_Y).
Proof.
  apply (button_then_queries fresh 2 NK_GAMEPAD_BUTTON_Y).
  - unfold NK_GAMEPAD_MAX. lia.
  - reflexivity.
  - vm_compute. split; congruence.
Defined.

(** ** Ticks *)

Lemma rotate_masks_slot (g : nk_gamepads) (i : Z) :
  0 <= i < NK_GAMEPAD_MAX ->
  gamepad_at (rotate_masks g) i = rotate_slot (gamepad_at g i).
Proof.
  intros Hi. destruct (rotate_masks_spec g) as (_ & _ & _ & Hat).
  rewrite Hat by lia. rewrite decide_True by lia. reflexivity.
Qed.

Lemma flag_set_zero (button : Z) : flag_set 0 button = false.
Proof. unfold flag_set. rewrite Z.land_0_l. reflexivity. Qed.

(** The queries on one slot after the loop of nk_gamepad_update. *)
Lemma rotated_slot_queries (g : nk_gamepads) (num button : Z) :
  0 <= num ->
  nk_gamepad_is_button_down (Some (rotate_masks g)) num button = false
  /\ nk_gamepad_is_button_pressed (Some (rotate_masks g)) num button = false
  /\ nk_gamepad_is_button_released (Some (rotate_masks g)) num button
     = nk_gamepad_is_button_down (Some g) num button.
Proof.
  intros Hnum.
  rewrite !is_button_down_slot, is_button_pressed_slot, is_button_released_slot
    by assumption.
  destruct (Z.ltb_spec num NK_GAMEPAD_MAX) as [Hlt|Hge];
    [|repeat split; reflexivity].
  rewrite rotate_masks_slot by lia. unfold rotate_slot.
  destruct (available (gamepad_at g num)) eqn:Hav;
    cbn [available buttons buttons_prev andb]; rewrite ?Hav, ?flag_set_zero;
    repeat split; try reflexivity; apply andb_false_r.
Qed.

(** X8. A tick in which the backend reports nothing (no poll hook):
    after nk_gamepad_update no button is down and none counts as just
    pressed, and a button counts as just released exactly when it was
    down before the update.  This holds for a slot index and for any
    slot alike, and for every button ordinal. *)
Theorem empty_tick (B : backend) (g : nk_gamepads) (num button : Z) :
  NK_GAMEPAD_UPDATE B = None ->
  nk_gamepad_is_button_down (Some (after_update B g)) num button = false
  /\ nk_gamepad_is_button_pressed (Some (after_update B g)) num button = false
  /\ nk_gamepad_is_button_released (Some (after_update B g)) num button
     = nk_gamepad_is_button_down (Some g) num button.
Proof.
  intros Hnone.
  assert (Hg : after_update B g = rotate_masks g)
    by (unfold after_update, nk_gamepad_update; rewrite Hnone; reflexivity).
  rewrite Hg. clear Hg.
  destruct (Z.lt_ge_cases num 0) as [Hneg|Hpos];
    [|apply rotated_slot_queries; assumption].
  split; [|split].
  - apply not_true_iff_false. rewrite any_slot_down by assumption.
    intros (i & Hi & Hd).
    destruct (rotated_slot_queries g i button) as (Hd' & _); [lia|]. congruence.
  - apply not_true_iff_false. rewrite any_slot_pressed by assumption.
    intros (i & Hi & Hp).
    destruct (rotated_slot_queries g i button) as (_ & Hp' & _); [lia|]. congruence.
  - apply eq_true_iff_eq.
    rewrite any_slot_released, any_slot_down by assumption.
    split; intros (i & Hi & H); exists i; (split; [assumption|]);
      destruct (rotated_slot_queries g i button) as (_ & _ & Hr); try lia;
      congruence.
Qed.

Lemma empty_tick_witness :
  nk_gamepad_is_button_released (Some (after_update no_backend mixed_tracker)) (-1)
    NK_GAMEPAD_BUTTON_A
  = nk_gamepad_is_button_down (Some mixed_tracker) (-1) NK_GAMEPAD_BUTTON_A.
Proof.
  apply (empty_tick no_backend mixed_tracker (-1) NK_GAMEPAD_BUTTON_A).
  reflexivity.
Defined.

(** The slot a backend keeps reporting, after one tick. *)
Lemma held_slot_after_tick (g : nk_gamepads) (num button : Z) :
  0 <= num < NK_GAMEPAD_MAX -> available (gamepad_at g num) = true ->
  gamepad_at (after_update (holding_backend num button) g) num
  = {| available := true;
       buttons := Z.lor 0 (to_uint (NK_GAMEPAD_BUTTON_FLAG button));
       buttons_prev := buttons (gamepad_at g num);
       name := name (gamepad_at g num);
       data := data (gamepad_at g num) |}.
Proof.
  intros Hnum Hav.
  change (after_update (holding_backend num button) g)
    with (after_button (rotate_masks g) num button nk_true).
  assert (Hrot : gamepad_at (rotate_masks g) num
                 = {| available := true; buttons := 0;
                      buttons_prev := buttons (gamepad_at g num);
                      name := name (gamepad_at g num);
                      data := data (gamepad_at g num) |}).
  { rewrite rotate_masks_slot by assumption. unfold rotate_slot.
    rewrite Hav. reflexivity. }
  rewrite after_button_slot by (try assumption; rewrite Hrot; reflexivity).
  rewrite Hrot. reflexivity.
Qed.

(** X9. A button of the enumeration that the backend poll reports as
    held on an available slot, tick after tick: after the first
    nk_gamepad_update it is down, counts as just pressed exactly when it
    was not down before, and does not count as just released; after the
    second nk_gamepad_update it is still down and counts neither as just
    pressed nor as just released. *)
Theorem held_across_ticks (g : nk_gamepads) (num button : Z) :
  0 <= num < NK_GAMEPAD_MAX ->
  available (gamepad_at g num) = true ->
  valid_button button ->
  let tick := after_update (holding_backend num button) in
  nk_gamepad_is_button_down (Some (tick g)) num button = true
  /\ nk_gamepad_is_button_pressed (Some (tick g)) num button
     = negb (nk_gamepad_is_button_down (Some g) num button)
  /\ nk_gamepad_is_button_released (Some (tick g)) num button = false
  /\ nk_gamepad_is_button_down (Some (tick (tick g))) num button = true
  /\ nk_gamepad_is_button_pressed (Some (tick (tick g))) num button = false
  /\ nk_gamepad_is_button_released (Some (tick (tick g))) num button = false.
Proof.
  intros Hnum Hav Hb tick. unfold tick.
  assert (Hav1 : available (gamepad_at (after_update (holding_backend num button) g)
                              num) = true)
    by (rewrite held_slot_after_tick by assumption; reflexivity).
  rewrite !is_button_down_slot, !is_button_pressed_slot, !is_button_released_slot
    by lia.
  rewrite (held_slot_after_tick (after_update _ g)) by assumption.
  rewrite !held_slot_after_tick by assumption.
  cbn [available buttons buttons_prev].
  assert (Hheld : flag_set (Z.lor 0 (to_uint (NK_GAMEPAD_BUTTON_FLAG button)))
                    button = true)
    by exact (flag_set_after_write 0 button true Hb).
  rewrite Hheld, Hav.
  destruct (Z.ltb_spec num NK_GAMEPAD_MAX) as [_|?]; [|lia].
  cbn [negb andb]. repeat split; try reflexivity. apply andb_true_r.
Qed.

Lemma held_across_ticks_witness :
  nk_gamepad_is_button_pressed
    (Some (after_update (holding_backend 0 NK_GAMEPAD_BUTTON_B) fresh))
    0 NK_GAMEPAD_BUTTON_B = true
  /\ nk_gamepad_is_button_pressed
       (Some (after_update (holding_backend 0 NK_GAMEPAD_BUTTON_B)
                (after_update (holding_backend 0 NK_GAMEPAD_BUTTON_B) fresh)))
       0 NK_GAMEPAD_BUTTON_B = false.
Proof.
  destruct (held_across_ticks fresh 0 NK_GAMEPAD_BUTTON_B)
    as (_ & Hp1 & _ & _ & Hp2 & _).
  - unfold NK_GAMEPAD_MAX. lia.
  - reflexivity.
  - vm_compute. split; congruence.
  - split; [rewrite Hp1; reflexivity | exact Hp2].
Defined.

(** ** nk_gamepad_free *)

Lemma gamepad_at_nk_zero (i : Z) : gamepad_at nk_zero i = zero_gamepad.
Proof.
  unfold gamepad_at, nk_zero. cbn [gamepads].
  rewrite list_lookup_total_alt.
  destruct (replicate (Z.to_nat NK_GAMEPAD_MAX) zero_gamepad !! Z.to_nat i)
    as [p|] eqn:Hp; [|reflexivity].
  apply lookup_replicate in Hp as [-> _]. reflexivity.
Qed.

(** Nothing is reported about a tracker without an available slot. *)
Lemma no_slot_available (g : nk_gamepads) (num button : Z)
    (out_num out_button : option Z) :
  (forall i, available (gamepad_at g i) = false) ->
  nk_gamepad_is_available (Some g) num = false
  /\ nk_gamepad_is_button_down (Some g) num button = false
  /\ nk_gamepad_is_button_pressed (Some g) num button = false
  /\ nk_gamepad_is_button_released (Some g) num button = false
  /\ nk_gamepad_any_button_pressed (Some g) num out_num out_button
     = (nk_false, out_num, out_button).
Proof.
  intros Hoff.
  assert (Hslot : forall i b, 0 <= i ->
            nk_gamepad_is_button_down (Some g) i b = false
            /\ nk_gamepad_is_button_pressed (Some g) i b = false
            /\ nk_gamepad_is_button_released (Some g) i b = false).
  { intros i b Hi.
    rewrite is_button_down_slot, is_button_pressed_slot, is_button_released_slot
      by assumption.
    rewrite Hoff, andb_false_r. repeat split; reflexivity. }
  assert (Hqueries : nk_gamepad_is_button_down (Some g) num button = false
            /\ nk_gamepad_is_button_pressed (Some g) num button = false
            /\ nk_gamepad_is_button_released (Some g) num button = false).
  { destruct (Z.lt_ge_cases num 0) as [Hneg|Hpos]; [|apply Hslot; assumption].
    split; [|split]; apply not_true_iff_false.
    - rewrite any_slot_down by assumption. intros (i & Hi & H).
      destruct (Hslot i button) as (H' & _); [lia | congruence].
    - rewrite any_slot_pressed by assumption. intros (i & Hi & H).
      destruct (Hslot i button) as (_ & H' & _); [lia | congruence].
    - rewrite any_slot_released by assumption. intros (i & Hi & H).
      destruct (Hslot i button) as (_ & _ & H'); [lia | congruence]. }
  split; [|repeat split; try apply Hqueries].
  - unfold nk_gamepad_is_available. destruct (num <? 0).
    + rewrite (proj2 (for_return_None _ _ _)); [reflexivity|].
      intros k _. rewrite Hoff. reflexivity.
    + destruct (num >=? NK_GAMEPAD_MAX); [reflexivity | apply Hoff].
  - rewrite nk_gamepad_any_button_pressed_loops.
    destruct (num >=? NK_GAMEPAD_MAX); [reflexivity|].
    destruct (Z.ltb_spec num 0) as [Hneg|Hpos].
    + rewrite scan_slots_none; [reflexivity|].
      intros s b Hs _. apply Hslot. lia.
    + rewrite Hoff. reflexivity.
Qed.

(** X10. nk_gamepad_free leaves a NULL tracker alone and otherwise
    leaves the zeroed tracker, whatever the backend free hook does:
    afterwards no slot is available, every button query is false, nothing
    is found pressed, every name is NULL and the user data is NULL, while
    nk_gamepad_count still returns NK_GAMEPAD_MAX; freeing twice is the
    same as freeing once. *)
Theorem nk_gamepad_free_spec (B : backend) (g : nk_gamepads) (num button : Z)
    (out_num out_button : option Z) :
  nk_gamepad_free B None = None
  /\ nk_gamepad_free B (nk_gamepad_free B (Some g)) = nk_gamepad_free B (Some g)
  /\ nk_gamepad_is_available (nk_gamepad_free B (Some g)) num = false
  /\ nk_gamepad_is_button_down (nk_gamepad_free B (Some g)) num button = false
  /\ nk_gamepad_is_button_pressed (nk_gamepad_free B (Some g)) num button = false
  /\ nk_gamepad_is_button_released (nk_gamepad_free B (Some g)) num button = false
  /\ nk_gamepad_any_button_pressed (nk_gamepad_free B (Some g)) num
       out_num out_button = (nk_false, out_num, out_button)
  /\ nk_gamepad_name B (nk_gamepad_free B (Some g)) num = None
  /\ nk_gamepad_user_data (nk_gamepad_free B (Some g)) = NULL
  /\ nk_gamepad_count (nk_gamepad_free B (Some g)) = nk_gamepad_count (Some g).
Proof.
  assert (Hfree : forall g0, nk_gamepad_free B (Some g0) = Some nk_zero)
    by (intros g0; unfold nk_gamepad_free; reflexivity).
  rewrite !Hfree.
  assert (Hoff : forall i, available (gamepad_at nk_zero i) = false)
    by (intros i; rewrite gamepad_at_nk_zero; reflexivity).
  destruct (no_slot_available nk_zero num button out_num out_button Hoff)
    as (Hav & Hdown & Hpressed & Hreleased & Hany).
  repeat split; try assumption; try reflexivity.
  unfold nk_gamepad_name. rewrite Hoff. cbn [negb]. rewrite orb_true_r. reflexivity.
Qed.

(** ** nk_gamepad_init *)

(** X11. nk_gamepad_init fails on a NULL tracker and otherwise succeeds
    exactly when there is no backend init hook or the hook reports
    success; what the tracker held before the call has no influence on
    the result. *)
Theorem nk_gamepad_init_outcome (B : backend) (g g' : nk_gamepads)
    (c u : pointer) :
  nk_gamepad_init B None c u = (nk_false, None)
  /\ (fst (nk_gamepad_init B (Some g) c u) = true
      <-> match NK_GAMEPAD_INIT B with
          | Some hook => fst (hook (default_state c u)) = true
          | None => True
          end)
  /\ (fst (nk_gamepad_init B (Some g) c u) = false ->
      exists hook, NK_GAMEPAD_INIT B = Some hook
        /\ nk_gamepad_init B (Some g) c u
           = (nk_false, Some (snd (hook (default_state c u)))))
  /\ nk_gamepad_init B (Some g) c u = nk_gamepad_init B (Some g') c u.
Proof.
  split; [reflexivity|]. unfold nk_gamepad_init.
  destruct (NK_GAMEPAD_INIT B) as [hook|].
  - destruct (hook (default_state c u)) as [ok g1] eqn:Hhook. destruct ok; cbn.
    + repeat split; try reflexivity. discriminate.
    + repeat split; try discriminate; try reflexivity.
      intros _. exists hook. rewrite Hhook. split; reflexivity.
  - cbn. repeat split; try reflexivity. discriminate.
Qed.

Lemma nk_gamepad_init_outcome_witness :
  exists hook, NK_GAMEPAD_INIT failing_backend = Some hook
    /\ nk_gamepad_init failing_backend (Some fresh) NULL NULL
       = (nk_false, Some (snd (hook (default_state NULL NULL)))).
Proof.
  destruct (nk_gamepad_init_outcome failing_backend fresh fresh NULL NULL)
    as (_ & _ & Hfail & _).
  apply Hfail. reflexivity.
Defined.

(** X12. Without a backend init hook, a successful nk_gamepad_init
    leaves a tracker of NK_GAMEPAD_MAX slots that holds the given context
    and user data (which nk_gamepad_user_data returns), and in which
    every slot has a NULL data pointer and, as its name, the name prefix
    followed by the decimal number of the slot counted from 1. *)
Theorem nk_gamepad_init_defaults (B : backend) (gp : option nk_gamepads)
    (c u : pointer) (g : nk_gamepads) (i : Z) :
  NK_GAMEPAD_INIT B = None ->
  nk_gamepad_init B gp c u = (nk_true, Some g) ->
  0 <= i < NK_GAMEPAD_MAX ->
  well_formed g
  /\ ctx g = c
  /\ nk_gamepad_user_data (Some g) = u
  /\ data (gamepad_at g i) = NULL
  /\ c_string (name (gamepad_at g i))
     = NK_GAMEPAD_NAME_PREFIX ++ c_string (nk_itoa (i + 1))
  /\ length (name (gamepad_at g i)) = Z.to_nat NK_GAMEPAD_NAME_SIZE.
Proof.
  intros Hnone Hinit Hi.
  destruct (nk_gamepad_init_success _ _ _ _ _ Hinit) as [g1 [-> Hg1]].
  rewrite Hnone in Hg1. subst g1.
  assert (Hlist : gamepads (seed_previous (default_state c u)) = gamepads fresh)
    by reflexivity.
  split; [unfold well_formed; rewrite Hlist; reflexivity|].
  split; [reflexivity|]. split; [reflexivity|].
  unfold gamepad_at. rewrite Hlist.
  assert (Hcases : i = 0 \/ i = 1 \/ i = 2 \/ i = 3)
    by (unfold NK_GAMEPAD_MAX in Hi; lia).
  destruct Hcases as [-> | [-> | [-> | ->]]]; repeat split; reflexivity.
Qed.

Lemma nk_gamepad_init_defaults_witness :
  c_string (name (gamepad_at fresh 3)) = list_ascii_of_string "Controller 4"
  /\ well_formed fresh.
Proof.
  destruct (nk_gamepad_init_defaults no_backend (Some nk_zero) NULL NULL fresh 3)
    as (Hwf & _ & _ & _ & Hname & _).
  - reflexivity.
  - reflexivity.
  - unfold NK_GAMEPAD_MAX. lia.
  - split; [rewrite Hname; reflexivity | exact Hwf].
Defined.

(** ** The number of slots *)

Lemma for_each_length (n : nat) (lo : Z)
    (body : Z -> nk_gamepads -> nk_gamepads) (g : nk_gamepads) :
  (forall i x, length (gamepads (body i x)) = length (gamepads x)) ->
  length (gamepads (for_each n lo body g)) = length (gamepads g).
Proof.
  intros Hbody.
  apply (for_each_invariant
           (fun x => length (gamepads x) = length (gamepads g))); [|reflexivity].
  intros i x Hx. rewrite Hbody. exact Hx.
Qed.

Lemma nk_gamepad_button_length (g g' : nk_gamepads) (num button : Z)
    (down : nk_bool) :
  nk_gamepad_button (Some g) num button down = Some g' ->
  length (gamepads g') = length (gamepads g).
Proof.
  unfold nk_gamepad_button.
  destruct ((num <? 0) || (num >=? NK_GAMEPAD_MAX)
            || negb (available (gamepad_at g num))).
  - intros [= <-]. reflexivity.
  - destruct down; intros [= <-]; apply update_gamepad_length.
Qed.

(** X13. The number of slots is fixed: with a backend whose hooks keep
    the tracker at NK_GAMEPAD_MAX slots, every state reached from a
    successful nk_gamepad_init by nk_gamepad_update and nk_gamepad_button
    calls, with any button ordinals, has exactly NK_GAMEPAD_MAX slots. *)
Theorem slot_count_fixed (B : backend) (legal : Z -> Prop) (g : nk_gamepads) :
  backend_preserves well_formed B ->
  reachable B legal g ->
  well_formed g.
Proof.
  intros [Hinit Hupdate] Hreach. unfold well_formed in *.
  induction Hreach as [gp c u g Hrun | g g' _ IH Hrun
                      | g num button down g' _ IH _ Hrun].
  - destruct (nk_gamepad_init_success _ _ _ _ _ Hrun) as [g1 [-> Hg1]].
    unfold seed_previous.
    rewrite for_each_length by (intros; apply update_gamepad_length).
    destruct (NK_GAMEPAD_INIT B) as [hook|] eqn:Hhook.
    + specialize (Hinit hook (default_state c u) eq_refl eq_refl).
      rewrite Hg1 in Hinit. exact Hinit.
    + subst g1. reflexivity.
  - unfold nk_gamepad_update in Hrun.
    destruct (rotate_masks_spec g) as (Hlen & _).
    destruct (NK_GAMEPAD_UPDATE B) as [hook|] eqn:Hhook; injection Hrun as <-.
    + apply (Hupdate hook _ eq_refl). rewrite Hlen. exact IH.
    + rewrite Hlen. exact IH.
  - rewrite (nk_gamepad_button_length _ _ _ _ _ Hrun). exact IH.
Qed.

Lemma probing_backend_keeps_slots : backend_preserves well_formed probing_backend.
Proof.
  unfold well_formed. split; intros hook g [= <-] Hg.
  - destruct (available (gamepad_at (update_gamepad 1 (set_available nk_false) g) 0));
      cbn [negb snd]; rewrite ?update_gamepad_length; exact Hg.
  - destruct (available (gamepad_at g 0)); cbn [negb];
      rewrite ?update_gamepad_length; exact Hg.
Qed.

Lemma slot_count_fixed_witness : well_formed played.
Proof.
  apply (slot_count_fixed probing_backend (fun _ => True) played).
  - exact probing_backend_keeps_slots.
  - eapply (reach_button _ _ _ 0 NK_GAMEPAD_BUTTON_B nk_true).
    + eapply reach_update.
      * apply (reach_init _ _ (Some nk_zero) NULL NULL). vm_compute. reflexivity.
      * vm_compute. reflexivity.
    + exact I.
    + vm_compute. reflexivity.
Defined.

(** ** What nk_gamepad_any_button_pressed finds *)

Lemma scan_buttons_none_inv (g : nk_gamepads) (out_num out_button : option Z)
    (s b : Z) :
  scan_buttons g out_num out_button s = None ->
  valid_button b ->
  nk_gamepad_is_button_pressed (Some g) s b = false.
Proof.
  unfold scan_buttons. rewrite for_return_None. intros Hnone Hb.
  specialize (Hnone b). unfold report_pressed in Hnone.
  destruct (nk_gamepad_is_button_pressed (Some g) s b); [|reflexivity].
  unfold valid_button, NK_GAMEPAD_BUTTON_FIRST, NK_GAMEPAD_BUTTON_LAST in *.
  discriminate Hnone. lia.
Qed.

(** X14. nk_gamepad_any_button_pressed finds a button exactly when
    nk_gamepad_is_button_pressed, asked with the same slot argument, is
    true for some button of the enumeration; and what it reports is a
    slot index in [0, NK_GAMEPAD_MAX) (the given one, unless that was
    negative) and a button of the enumeration that is just pressed on
    that slot. *)
Theorem nk_gamepad_any_button_pressed_sound (g : nk_gamepads) (num : Z)
    (out_num out_button : option Z) :
  (fst (fst (nk_gamepad_any_button_pressed (Some g) num out_num out_button)) = true
   <-> exists b, valid_button b
         /\ nk_gamepad_is_button_pressed (Some g) num b = true)
  /\ (fst (fst (nk_gamepad_any_button_pressed (Some g) num out_num out_button))
      = true ->
      exists s b,
        nk_gamepad_any_button_pressed (Some g) num out_num out_button
        = (nk_true, store_if_not_null out_num s, store_if_not_null out_button b)
        /\ 0 <= s < NK_GAMEPAD_MAX /\ (0 <= num -> s = num)
        /\ valid_button b
        /\ nk_gamepad_is_button_pressed (Some g) s b = true).
Proof.
  rewrite nk_gamepad_any_button_pressed_loops.
  destruct (Z.geb_spec num NK_GAMEPAD_MAX) as [Hge|Hlt].
  { split; [|discriminate]. split; [discriminate|]. intros (b & _ & Hp).
    rewrite is_button_pressed_slot in Hp by (unfold NK_GAMEPAD_MAX in *; lia).
    destruct (Z.ltb_spec num NK_GAMEPAD_MAX); [lia | discriminate]. }
  destruct (Z.ltb_spec num 0) as [Hneg|Hpos].
  - destruct (for_return (Z.to_nat NK_GAMEPAD_MAX) 0
                (scan_buttons g out_num out_button)) as [r|] eqn:Hloop.
    + apply for_return_Some in Hloop as (s & Hs & Hscan & _).
      destruct (scan_buttons_result g out_num out_button s r Hscan)
        as (b & Hb & Hp & ->).
      assert (Hs' : 0 <= s < NK_GAMEPAD_MAX) by (unfold NK_GAMEPAD_MAX in *; lia).
      split.
      * split; [|reflexivity]. intros _. exists b. split; [assumption|].
        apply any_slot_pressed; [assumption|]. exists s. split; assumption.
      * intros _. exists s, b. repeat split; try assumption; try (intros; lia);
          apply Hb.
    + split; [|discriminate]. split; [discriminate|]. intros (b & Hb & Hp).
      apply any_slot_pressed in Hp as (s & Hs & Hp); [|assumption].
      rewrite for_return_None in Hloop.
      rewrite (scan_buttons_none_inv g out_num out_button s b) in Hp;
        [discriminate | | assumption].
      apply Hloop. unfold NK_GAMEPAD_MAX in *. lia.
  - destruct (available (gamepad_at g num)) eqn:Hav; cbn [negb].
    + destruct (scan_buttons g out_num out_button num) as [r|] eqn:Hscan.
      * destruct (scan_buttons_result g out_num out_button num r Hscan)
          as (b & Hb & Hp & ->).
        split.
        -- split; [|reflexivity]. intros _. exists b. split; assumption.
        -- intros _. exists num, b. repeat split; try assumption; try (intros; lia);
             apply Hb.
      * split; [|discriminate]. split; [discriminate|]. intros (b & Hb & Hp).
        rewrite (scan_buttons_none_inv g out_num out_button num b Hscan Hb) in Hp.
        discriminate.
    + split; [|discriminate]. split; [discriminate|]. intros (b & _ & Hp).
      rewrite is_button_pressed_slot, Hav, andb_false_r in Hp by assumption.
      discriminate.
Qed.

Lemma nk_gamepad_any_button_pressed_sound_witness :
  exists b, valid_button b
    /\ nk_gamepad_is_button_pressed (Some edges_tracker) (-1) b = true.
Proof.
  destruct (nk_gamepad_any_button_pressed_sound edges_tracker (-1) None None)
    as [Hfound _].
  apply Hfound. reflexivity.
Defined.

(** ** The order of writes *)

Lemma button_on_accepted (g : nk_gamepads) (num button : Z) (down : nk_bool) :
  accepts g num ->
  nk_gamepad_button (Some g) num button down
  = Some (update_gamepad num
            (set_buttons (written_mask (buttons (gamepad_at g num)) button down)) g).
Proof.
  intros [Hnum Hav]. apply (button_accepted g num button down Hnum Hav).
Qed.

Lemma button_on_rejected (g : nk_gamepads) (num button : Z) (down : nk_bool) :
  ~ accepts g num -> nk_gamepad_button (Some g) num button down = Some g.
Proof.
  intros Hrej. unfold nk_gamepad_button.
  destruct ((num <? 0) || (num >=? NK_GAMEPAD_MAX)
            || negb (available (gamepad_at g num))) eqn:Hguard; [reflexivity|].
  apply button_guard in Hguard. contradiction.
Qed.

(** Writing a mask does not change which slots accept writes. *)
Lemma accepts_after_write (g : nk_gamepads) (num k v : Z) :
  0 <= num ->
  accepts (update_gamepad num (set_buttons v) g) k <-> accepts g k.
Proof.
  intros Hnum. unfold accepts.
  assert (Hav : 0 <= k ->
            available (gamepad_at (update_gamepad num (set_buttons v) g) k)
            = available (gamepad_at g k)).
  { intros Hk. rewrite gamepad_at_update by assumption.
    destruct (decide (k = num /\ (Z.to_nat num < length (gamepads g))%nat))
      as [[-> _]|_]; reflexivity. }
  split; intros [Hk H]; (split; [assumption|]);
    [rewrite <- Hav by lia | rewrite Hav by lia]; exact H.
Qed.

Lemma written_mask_comm (m b1 b2 : Z) (down : nk_bool) :
  written_mask (written_mask m b1 down) b2 down
  = written_mask (written_mask m b2 down) b1 down.
Proof.
  unfold written_mask. destruct down.
  - rewrite <- !Z.lor_assoc. f_equal. apply Z.lor_comm.
  - rewrite <- !Z.land_assoc. f_equal. apply Z.land_comm.
Qed.

Lemma nk_gamepads_eq (a b : nk_gamepads) :
  gamepads a = gamepads b -> ctx a = ctx b -> user_data a = user_data b -> a = b.
Proof. destruct a, b. cbn. intros -> -> ->. reflexivity. Qed.

Lemma gamepads_after_two_writes (g : nk_gamepads) (n1 n2 v1 v2 : Z) :
  gamepads (update_gamepad n2 (set_buttons v2)
              (update_gamepad n1 (set_buttons v1) g))
  = <[Z.to_nat n2 :=
        set_buttons v2 (gamepad_at (update_gamepad n1 (set_buttons v1) g) n2)]>
      (<[Z.to_nat n1 := set_buttons v1 (gamepad_at g n1)]> (gamepads g)).
Proof. reflexivity. Qed.

(** X15. The order of the writes of one poll does not matter: two
    presses, or two releases, by nk_gamepad_button leave the same tracker
    in either order, whatever the slots and buttons (also when a write is
    one that nk_gamepad_button ignores). *)
Theorem nk_gamepad_button_commutes (gp : option nk_gamepads)
    (num1 button1 num2 button2 : Z) (down : nk_bool) :
  nk_gamepad_button (nk_gamepad_button gp num1 button1 down) num2 button2 down
  = nk_gamepad_button (nk_gamepad_button gp num2 button2 down) num1 button1 down.
Proof.
  destruct gp as [g|]; [|reflexivity].
  assert (Hdec : forall k, accepts g k \/ ~ accepts g k).
  { intros k. unfold accepts.
    destruct (available (gamepad_at g k));
      destruct (Z.le_gt_cases 0 k), (Z.lt_ge_cases k NK_GAMEPAD_MAX);
      (left; repeat split; (lia || reflexivity)) || (right; intros [? ?]; (lia || discriminate)). }
  destruct (Hdec num1) as [H1|H1], (Hdec num2) as [H2|H2].
  - pose proof H1 as [[Hn1 _] _]. pose proof H2 as [[Hn2 _] _].
    rewrite (button_on_accepted g num1 button1 down H1).
    rewrite (button_on_accepted g num2 button2 down H2).
    rewrite button_on_accepted by (apply accepts_after_write; assumption).
    rewrite button_on_accepted by (apply accepts_after_write; assumption).
    f_equal. apply nk_gamepads_eq; try reflexivity.
    rewrite !gamepads_after_two_writes, !gamepad_at_update by lia.
    pose proof (available_in_array g num1 (proj2 H1)) as Hl1.
    pose proof (available_in_array g num2 (proj2 H2)) as Hl2.
    destruct (Z.eq_dec num1 num2) as [<-|Hne].
    + rewrite !decide_True by auto. cbn [buttons set_buttons].
      rewrite !list_insert_insert_eq. unfold set_buttons. cbn.
      rewrite written_mask_comm. reflexivity.
    + rewrite !decide_False by (intros [? _]; congruence).
      apply list_insert_insert_ne. lia.
  - rewrite (button_on_accepted g num1 button1 down H1).
    rewrite (button_on_rejected g num2 button2 down H2).
    rewrite button_on_rejected
      by (rewrite accepts_after_write by apply H1; assumption).
    rewrite (button_on_accepted g num1 button1 down H1). reflexivity.
  - rewrite (button_on_rejected g num1 button1 down H1).
    rewrite (button_on_accepted g num2 button2 down H2).
    rewrite button_on_rejected
      by (rewrite accepts_after_write by apply H2; assumption).
    reflexivity.
  - rewrite (button_on_rejected g num1 button1 down H1).
    rewrite (button_on_rejected g num2 button2 down H2).
    rewrite (button_on_rejected g num1 button1 down H1). reflexivity.
Qed.

(** ** The width of the masks *)

Lemma to_uint_land_ones (m : Z) : to_uint m = Z.land m (Z.ones 32).
Proof. unfold to_uint. rewrite Z.land_ones by lia. reflexivity. Qed.

Lemma to_uint_idempotent (m : Z) : fits_uint (to_uint m).
Proof.
  unfold fits_uint. rewrite !to_uint_land_ones, <- Z.land_assoc, Z.land_diag.
  reflexivity.
Qed.

Lemma fits_uint_range (m : Z) : fits_uint m <-> 0 <= m < 2 ^ 32.
Proof.
  unfold fits_uint, to_uint. split.
  - intros <-. apply Z.mod_pos_bound. lia.
  - intros Hm. apply Z.mod_small. assumption.
Qed.

(** Whatever the button ordinal, the mask nk_gamepad_button stores is a
    value of [unsigned int] when the mask it read was one. *)
Lemma written_mask_fits (m button : Z) (down : nk_bool) :
  fits_uint m -> fits_uint (written_mask m button down).
Proof.
  unfold fits_uint, written_mask. intros Hm. destruct down.
  - pose proof (to_uint_idempotent (NK_GAMEPAD_BUTTON_FLAG button)) as Hf.
    unfold fits_uint in Hf.
    rewrite to_uint_land_ones, Z.land_lor_distr_l, <- !to_uint_land_ones, Hm, Hf.
    reflexivity.
  - rewrite to_uint_land_ones, <- Z.land_assoc,
      (Z.land_comm _ (Z.ones 32)), Z.land_assoc, <- to_uint_land_ones, Hm.
    reflexivity.
Qed.

Lemma gamepad_at_Forall (Q : nk_gamepad -> Prop) (g : nk_gamepads) (i : Z) :
  Q zero_gamepad -> Forall Q (gamepads g) -> Q (gamepad_at g i).
Proof.
  intros Hz Hg. unfold gamepad_at. rewrite list_lookup_total_alt.
  destruct (gamepads g !! Z.to_nat i) as [p|] eqn:Hp; simpl.
  - exact (Forall_lookup_1 _ _ _ _ Hg Hp).
  - exact Hz.
Qed.

Lemma update_gamepad_Forall (Q : nk_gamepad -> Prop) (i : Z)
    (f : nk_gamepad -> nk_gamepad) (g : nk_gamepads) :
  Q zero_gamepad -> Forall Q (gamepads g) ->
  (forall p, Q p -> Q (f p)) ->
  Forall Q (gamepads (update_gamepad i f g)).
Proof.
  intros Hz Hg Hf. unfold update_gamepad. simpl.
  apply Forall_insert; [assumption|]. apply Hf, gamepad_at_Forall; assumption.
Qed.

Lemma zero_gamepad_fits : slot_fits zero_gamepad.
Proof. split; reflexivity. Qed.

(** X16. The masks never leave the range of unsigned int: with a
    backend whose hooks keep them below 2^32, every state reached from a
    successful nk_gamepad_init by nk_gamepad_update and nk_gamepad_button
    calls has 0 <= buttons < 2^32 and 0 <= buttons_prev < 2^32 in every
    slot, whatever button ordinals nk_gamepad_button was called with. *)
Theorem masks_fit_unsigned_int (B : backend) (legal : Z -> Prop)
    (g : nk_gamepads) (i : Z) :
  backend_preserves masks_fit B ->
  reachable B legal g ->
  0 <= buttons (gamepad_at g i) < 2 ^ 32
  /\ 0 <= buttons_prev (gamepad_at g i) < 2 ^ 32.
Proof.
  intros [Hinit Hupdate] Hreach.
  assert (Hseed : forall x, masks_fit x -> masks_fit (seed_previous x)).
  { intros x Hx. unfold seed_previous.
    apply (for_each_invariant masks_fit); [|assumption].
    intros k y Hy. apply update_gamepad_Forall;
      [apply zero_gamepad_fits | assumption |].
    intros p [Hcur _]. split; exact Hcur. }
  assert (Hrot : forall x, masks_fit x -> masks_fit (rotate_masks x)).
  { intros x Hx. unfold rotate_masks.
    apply (for_each_invariant masks_fit); [|assumption].
    intros k y Hy. destruct (negb (available (gamepad_at y k))); [assumption|].
    apply update_gamepad_Forall; [apply zero_gamepad_fits | |].
    - apply update_gamepad_Forall; [apply zero_gamepad_fits | assumption |].
      intros p [Hcur _]. split; exact Hcur.
    - intros p [_ Hprev]. split; [reflexivity | exact Hprev]. }
  assert (Hdefault : forall c u, masks_fit (default_state c u)).
  { intros c u. unfold default_state.
    apply (for_each_invariant masks_fit).
    - intros k x Hx.
      apply update_gamepad_Forall; [apply zero_gamepad_fits | | intros p Hp; exact Hp].
      apply (for_each_invariant masks_fit).
      + intros j y Hy. apply update_gamepad_Forall;
          [apply zero_gamepad_fits | assumption | intros p Hp; exact Hp].
      + apply update_gamepad_Forall;
          [apply zero_gamepad_fits | assumption | intros p Hp; exact Hp].
    - unfold masks_fit, set_user_data, set_ctx, nk_zero. cbn [gamepads].
      apply Forall_replicate, zero_gamepad_fits. }
  assert (Hok : masks_fit g).
  { induction Hreach as [gp c u g Hrun | g g' _ IH Hrun
                        | g num button down g' _ IH _ Hrun].
    - destruct (nk_gamepad_init_success _ _ _ _ _ Hrun) as [g1 [-> Hg1]].
      apply Hseed. destruct (NK_GAMEPAD_INIT B) as [hook|] eqn:Hhook.
      + specialize (Hinit hook (default_state c u) eq_refl (Hdefault c u)).
        rewrite Hg1 in Hinit. exact Hinit.
      + subst g1. apply Hdefault.
    - unfold nk_gamepad_update in Hrun.
      destruct (NK_GAMEPAD_UPDATE B) as [hook|] eqn:Hhook; injection Hrun as <-.
      + apply (Hupdate hook _ eq_refl), Hrot, IH.
      + apply Hrot, IH.
    - unfold nk_gamepad_button in Hrun.
      destruct ((num <? 0) || (num >=? NK_GAMEPAD_MAX)
                || negb (available (gamepad_at g num))).
      + injection Hrun as <-. exact IH.
      + destruct down; injection Hrun as <-;
          (apply update_gamepad_Forall; [apply zero_gamepad_fits | exact IH |]);
          intros p [Hcur Hprev]; (split; [|exact Hprev]).
        * exact (written_mask_fits (buttons p) button true Hcur).
        * exact (written_mask_fits (buttons p) button false Hcur). }
  destruct (gamepad_at_Forall slot_fits g i zero_gamepad_fits Hok) as [Hcur Hprev].
  split; apply fits_uint_range; assumption.
Qed.

Lemma no_backend_preserves (P : nk_gamepads -> Prop) : backend_preserves P no_backend.
Proof. split; intros hook g Hhook; discriminate Hhook. Qed.

(** The state that refutes the ordinal check still has 32-bit masks. *)
Lemma masks_fit_unsigned_int_witness :
  0 <= buttons (gamepad_at (after_button fresh 0 31 nk_true) 0) < 2 ^ 32
  /\ 0 <= buttons_prev (gamepad_at (after_button fresh 0 31 nk_true) 0) < 2 ^ 32.
Proof.
  apply (masks_fit_unsigned_int no_backend (fun _ => True)).
  - apply no_backend_preserves.
  - apply (reach_button _ _ fresh 0 31 nk_true);
      [ apply (reach_init _ _ (Some nk_zero) NULL NULL); reflexivity
      | exact I | reflexivity ].
Defined.

(** ** What the writes leave alone *)

Lemma for_return_ext {R : Type} (n : nat) (lo : Z) (f h : Z -> option R) :
  (forall i, lo <= i -> f i = h i) -> for_return n lo f = for_return n lo h.
Proof.
  revert lo. induction n as [|n IH]; intros lo Heq; simpl; [reflexivity|].
  rewrite Heq by lia. destruct (h lo); [reflexivity|].
  apply IH. intros i Hi. apply Heq. lia.
Qed.

Lemma is_available_ext (g g' : nk_gamepads) (num : Z) :
  (forall i, 0 <= i -> available (gamepad_at g' i) = available (gamepad_at g i)) ->
  nk_gamepad_is_available (Some g') num = nk_gamepad_is_available (Some g) num.
Proof.
  intros Hav. unfold nk_gamepad_is_available.
  destruct (Z.ltb_spec num 0) as [Hneg|Hpos].
  - rewrite (for_return_ext _ _ _
               (fun i => if available (gamepad_at g i) then Some nk_true else None));
      [reflexivity|].
    intros i Hi. rewrite Hav by assumption. reflexivity.
  - rewrite Hav by assumption. reflexivity.
Qed.

(** X17. nk_gamepad_button and the loop of nk_gamepad_update never
    change which slots are available, the user data or the slot count:
    nk_gamepad_is_available, nk_gamepad_user_data and nk_gamepad_count
    answer after nk_gamepad_button, and after nk_gamepad_update without
    a poll hook, as they did before. *)
Theorem writes_keep_accessors (B : backend) (gp : option nk_gamepads)
    (num button k : Z) (down : nk_bool) :
  nk_gamepad_is_available (nk_gamepad_button gp num button down) k
  = nk_gamepad_is_available gp k
  /\ nk_gamepad_user_data (nk_gamepad_button gp num button down)
     = nk_gamepad_user_data gp
  /\ nk_gamepad_count (nk_gamepad_button gp num button down) = nk_gamepad_count gp
  /\ nk_gamepad_count (nk_gamepad_update B gp) = nk_gamepad_count gp
  /\ (NK_GAMEPAD_UPDATE B = None ->
      nk_gamepad_is_available (nk_gamepad_update B gp) k
      = nk_gamepad_is_available gp k
      /\ nk_gamepad_user_data (nk_gamepad_update B gp) = nk_gamepad_user_data gp).
Proof.
  destruct gp as [g|];
    [|repeat split; try reflexivity; intros _; split; reflexivity].
  assert (Hbutton : exists g', nk_gamepad_button (Some g) num button down = Some g'
            /\ user_data g' = user_data g
            /\ forall i, 0 <= i ->
                 available (gamepad_at g' i) = available (gamepad_at g i)).
  { unfold nk_gamepad_button.
    destruct ((num <? 0) || (num >=? NK_GAMEPAD_MAX)
              || negb (available (gamepad_at g num))) eqn:Hguard.
    - exists g. repeat split; reflexivity.
    - apply button_guard in Hguard as [Hnum _].
      destruct down; eexists; (split; [reflexivity|]); (split; [reflexivity|]);
        intros i Hi; rewrite gamepad_at_update by lia;
        destruct (decide (i = num /\ (Z.to_nat num < length (gamepads g))%nat))
          as [[-> _]|_]; reflexivity. }
  destruct Hbutton as (g' & -> & Hud & Hav).
  split; [apply is_available_ext; exact Hav|].
  split; [exact Hud|]. split; [reflexivity|].
  split; [unfold nk_gamepad_update; destruct (NK_GAMEPAD_UPDATE B); reflexivity|].
  intros Hnone. unfold nk_gamepad_update. rewrite Hnone.
  destruct (rotate_masks_spec g) as (_ & _ & Hud' & Hat).
  split; [|exact Hud'].
  apply is_available_ext. intros i Hi. rewrite Hat by assumption.
  destruct (decide (i < NK_GAMEPAD_MAX)); [|reflexivity].
  unfold rotate_slot. destruct (available (gamepad_at g i)) eqn:Hi'; [reflexivity|].
  exact Hi'.
Qed.

Lemma writes_keep_accessors_witness :
  nk_gamepad_is_available (nk_gamepad_update no_backend (Some start_tracker)) (-1)
  = nk_gamepad_is_available (Some start_tracker) (-1).
Proof.
  destruct (writes_keep_accessors no_backend (Some start_tracker) 0
              NK_GAMEPAD_BUTTON_A (-1) nk_true) as (_ & _ & _ & _ & Htick).
  apply Htick. reflexivity.
Defined.

(** ** Names and availability *)

(** X18. Whatever the backend, nk_gamepad_name returns a name only for
    a slot index in [0, NK_GAMEPAD_MAX) for which nk_gamepad_is_available
    is true; without a name hook it returns one for exactly those. *)
Theorem name_only_when_available (B : backend) (g : nk_gamepads) (num : Z) :
  (nk_gamepad_name B (Some g) num <> None ->
   0 <= num < NK_GAMEPAD_MAX /\ nk_gamepad_is_available (Some g) num = true)
  /\ (NK_GAMEPAD_NAME B = None ->
      0 <= num -> nk_gamepad_is_available (Some g) num = true ->
      nk_gamepad_name B (Some g) num = Some (name (gamepad_at g num))).
Proof.
  unfold nk_gamepad_name, nk_gamepad_is_available.
  destruct ((num <? 0) || (num >=? NK_GAMEPAD_MAX)
            || negb (available (gamepad_at g num))) eqn:Hguard.
  - split; [intros H; contradiction H; reflexivity|].
    apply name_guard in Hguard.
    intros _ Hnum Hav. destruct (Z.ltb_spec num 0) as [?|_]; [lia|].
    destruct Hguard as [?|[Hge|Hoff]]; [lia | |].
    + destruct (Z.geb_spec num NK_GAMEPAD_MAX); [discriminate | lia].
    + revert Hav. destruct (num >=? NK_GAMEPAD_MAX); intros Hav;
        [discriminate Hav | rewrite Hoff in Hav; discriminate Hav].
  - apply button_guard in Hguard as [Hnum Hav].
    destruct (Z.ltb_spec num 0) as [?|_]; [lia|].
    destruct (Z.geb_spec num NK_GAMEPAD_MAX) as [?|_]; [lia|].
    split; [intros _; split; assumption|].
    intros -> _ _. reflexivity.
Qed.

Lemma name_only_when_available_witness :
  0 <= 1 < NK_GAMEPAD_MAX /\ nk_gamepad_is_available (Some fresh) 1 = true.
Proof.
  apply (name_only_when_available naming_backend fresh 1). discriminate.
Defined.
